(** * AutoViz-Insight: the data core (dataService.ts, App.tsx, CorrelationHeatmap)

    A shallow embedding of the deterministic core of the application:
    [parseCSV], [calculateCorrelations] / [calculatePearson], [queryData]
    (services/dataService.ts), [sanitizeAnalysisResult] (App.tsx) and the
    decision taken by [CorrelationHeatmap] on the engine's result.

    Modelling conventions.
    - JS strings are sequences of UTF-16 code units; they are modelled as
      Rocq strings whose characters are the code units below 256 (Latin-1).
    - JS numbers are modelled as exact rationals [Q]; NaN is a separate
      value.  IEEE rounding, infinities and overflow are outside the model.
    - Plain JS objects (rows, the [groups] record) are association lists in
      insertion order; [Object.keys] puts canonical array indices first. *)

From Stdlib Require Import ZArith QArith Qround Qabs String Ascii List Bool Lia.
From Stdlib Require Import Permutation Sorted Lqa.
From Stdlib Require Import Numbers.DecimalString.
Import ListNotations.
Open Scope bool_scope.

(* ------------------------------------------------------------------ *)
(** ** Characters and strings *)

Module JsString.

Definition dquote : ascii := "034"%char.
Definition comma : ascii := ","%char.
Definition lf : ascii := "010"%char.
Definition cr : ascii := "013"%char.

(** WhiteSpace and LineTerminator code points below 256: TAB, LF, VT, FF,
    CR, SPACE, NBSP.  Used by [String.prototype.trim] and by [Number]. *)
Definition is_js_space (c : ascii) : bool :=
  let n := nat_of_ascii c in
  (n =? 9)%nat || (n =? 10)%nat || (n =? 11)%nat || (n =? 12)%nat
  || (n =? 13)%nat || (n =? 32)%nat || (n =? 160)%nat.

Fixpoint drop_space (l : list ascii) : list ascii :=
  match l with
  | c :: r => if is_js_space c then drop_space r else l
  | [] => []
  end.

(** [s.trim()] *)
Definition trim (s : string) : string :=
  string_of_list_ascii
    (rev (drop_space (rev (drop_space (list_ascii_of_string s))))).

(** [toLowerCase] on Latin-1: A-Z and U+00C0..U+00DE except U+00D7. *)
Definition lower_char (c : ascii) : ascii :=
  let n := nat_of_ascii c in
  if ((65 <=? n) && (n <=? 90))%nat
     || ((192 <=? n) && (n <=? 222) && negb (n =? 215))%nat
  then ascii_of_nat (n + 32) else c.

Fixpoint toLowerCase (s : string) : string :=
  match s with
  | EmptyString => EmptyString
  | String c r => String (lower_char c) (toLowerCase r)
  end.

(** [s.split(sep)] for a one-character separator. *)
Fixpoint split_char (sep : ascii) (s : string) : list string :=
  match s with
  | EmptyString => [EmptyString]
  | String c r =>
      let rest := split_char sep r in
      if Ascii.eqb c sep then EmptyString :: rest
      else match rest with
           | h :: t => String c h :: t
           | [] => [String c EmptyString]
           end
  end.

Definition cons_head (c : ascii) (l : list string) : list string :=
  match l with
  | h :: t => String c h :: t
  | [] => [String c EmptyString]
  end.

(** [s.split(/\r\n|\n/)] *)
Fixpoint split_lines (s : string) : list string :=
  match s with
  | EmptyString => [EmptyString]
  | String c r =>
      if Ascii.eqb c lf then EmptyString :: split_lines r
      else if Ascii.eqb c cr then
        match r with
        | String c2 r2 =>
            if Ascii.eqb c2 lf then EmptyString :: split_lines r2
            else cons_head c (split_lines r)
        | EmptyString => [String c EmptyString]
        end
      else cons_head c (split_lines r)
  end.

(** [s.replace(/^"|"$/g, '')]: a leading and a trailing double quote are
    removed independently (a lone quote is removed once). *)
Definition strip_quotes (s : string) : string :=
  let l := list_ascii_of_string s in
  let l1 := match l with
            | c :: r => if Ascii.eqb c dquote then r else l
            | [] => []
            end in
  let r1 := match rev l1 with
            | c :: r => if Ascii.eqb c dquote then r else rev l1
            | [] => []
            end in
  string_of_list_ascii (rev r1).

Fixpoint starts_with (p s : string) : bool :=
  match p, s with
  | EmptyString, _ => true
  | String a p', String b s' => Ascii.eqb a b && starts_with p' s'
  | _, _ => false
  end.

(** [s.includes(p)] *)
Fixpoint includes (s p : string) : bool :=
  starts_with p s ||
  match s with
  | EmptyString => false
  | String _ s' => includes s' p
  end.

(** Code-unit lexicographic order of JS strings: [a < b]. *)
Fixpoint str_lt (a b : string) : bool :=
  match a, b with
  | EmptyString, String _ _ => true
  | String x a', String y b' =>
      if (nat_of_ascii x <? nat_of_ascii y)%nat then true
      else if Ascii.eqb x y then str_lt a' b' else false
  | _, _ => false
  end.

End JsString.

(* ------------------------------------------------------------------ *)
(** ** JS numbers: [Number(string)] and [String(number)] *)

Module JsNumber.
Import JsString.
Local Open Scope string_scope.

Definition digit_val (base : Z) (c : ascii) : option Z :=
  let n := Z.of_nat (nat_of_ascii c) in
  let v := if ((48 <=? n) && (n <=? 57))%Z then Some (n - 48)%Z
           else if ((97 <=? n) && (n <=? 102))%Z then Some (n - 87)%Z
           else if ((65 <=? n) && (n <=? 70))%Z then Some (n - 55)%Z
           else None in
  match v with
  | Some d => if (d <? base)%Z then Some d else None
  | None => None
  end.

(** The longest prefix of digits in [base]: (value, digit count, rest). *)
Fixpoint take_digits (base : Z) (acc : Z) (cnt : nat) (l : list ascii)
  : Z * nat * list ascii :=
  match l with
  | c :: r =>
      match digit_val base c with
      | Some d => take_digits base (acc * base + d)%Z (S cnt) r
      | None => (acc, cnt, l)
      end
  | [] => (acc, cnt, [])
  end.

(** NonDecimalIntegerLiteral after its [0x]/[0o]/[0b] prefix. *)
Definition parse_radix (base : Z) (l : list ascii) : option Q :=
  match take_digits base 0 0 l with
  | (v, S _, []) => Some (inject_Z v)
  | _ => None
  end.

Definition parse_exponent (l : list ascii) : option Z :=
  match l with
  | [] => Some 0%Z
  | e :: r =>
      if Ascii.eqb e "e"%char || Ascii.eqb e "E"%char then
        let '(sg, r') := match r with
                         | s :: r'' => if Ascii.eqb s "-"%char then (-1, r'')%Z
                                       else if Ascii.eqb s "+"%char then (1, r'')%Z
                                       else (1%Z, r)
                         | [] => (1%Z, r)
                         end in
        match take_digits 10 0 0 r' with
        | (v, S _, []) => Some (sg * v)%Z
        | _ => None
        end
      else None
  end.

(** StrUnsignedDecimalLiteral without [Infinity]:
    digits [. digits] [exponent], with at least one digit. *)
Definition parse_unsigned_decimal (l : list ascii) : option Q :=
  let '(ip, ni, r1) := take_digits 10 0 0 l in
  let '(mant, nf, r2) :=
    match r1 with
    | c :: r => if Ascii.eqb c "."%char then take_digits 10 ip 0 r
                else (ip, O, r1)
    | [] => (ip, O, r1)
    end in
  match (ni + nf)%nat with
  | O => None
  | _ => match parse_exponent r2 with
         | Some e => Some (inject_Z mant * Qpower 10 (e - Z.of_nat nf))
         | None => None
         end
  end.

(** [Number(s)] for a string: [Some q] for a number, [None] for NaN.
    StringToNumber trims white space, reads the empty string as 0 and
    accepts hexadecimal, octal and binary integer literals and signed
    decimal literals.  The literal [Infinity] denotes an IEEE infinity,
    which has no rational value: it falls outside this model and reads as
    [None]; so do NaN-free magnitudes that overflow a double. *)
Definition js_Number (s : string) : option Q :=
  match list_ascii_of_string (trim s) with
  | [] => Some 0
  | "0"%char :: x :: r =>
      if Ascii.eqb x "x"%char || Ascii.eqb x "X"%char then parse_radix 16 r
      else if Ascii.eqb x "o"%char || Ascii.eqb x "O"%char then parse_radix 8 r
      else if Ascii.eqb x "b"%char || Ascii.eqb x "B"%char then parse_radix 2 r
      else parse_unsigned_decimal ("0"%char :: x :: r)
  | c :: r =>
      if Ascii.eqb c "-"%char then option_map Qopp (parse_unsigned_decimal r)
      else if Ascii.eqb c "+"%char then parse_unsigned_decimal r
      else parse_unsigned_decimal (c :: r)
  end.

(** Decimal digits of a non-negative integer. *)
Definition Z_digits (z : Z) : string := NilEmpty.string_of_int (Z.to_int z).

Definition ndigits (z : Z) : Z := Z.of_nat (String.length (Z_digits z)).

Fixpoint zeros (n : nat) : string :=
  match n with O => EmptyString | S k => String "0"%char (zeros k) end.

Fixpoint strip_zeros (fuel : nat) (s : Z) : Z :=
  match fuel with
  | O => s
  | S f => if (s mod 10 =? 0)%Z then strip_zeros f (s / 10)%Z else s
  end.

(** The decimal exponent [n] with [10^(n-1) <= a < 10^n], for [a > 0]. *)
Definition dec_exponent (a : Q) : Z :=
  if Qle_bool 1 a then ndigits (Qfloor a)
  else
    let p := Qnum a in let d := Zpos (Qden a) in
    let m0 := (ndigits d - ndigits p)%Z in
    let m := if (d <=? p * 10 ^ m0)%Z then m0 else (m0 + 1)%Z in
    (1 - m)%Z.

(** [Number::toString] (radix 10) on a positive value, from its [k]
    significant digits [ds] and exponent [n], as ECMA-262 lays it out. *)
Definition layout (ds : string) (n : Z) : string :=
  let k := Z.of_nat (String.length ds) in
  if (k <=? n)%Z && (n <=? 21)%Z then ds ++ zeros (Z.to_nat (n - k))
  else if (0 <? n)%Z && (n <=? 21)%Z then
    substring 0 (Z.to_nat n) ds ++ "." ++ substring (Z.to_nat n) (Z.to_nat k) ds
  else if (-6 <? n)%Z && (n <=? 0)%Z then
    "0." ++ zeros (Z.to_nat (- n)) ++ ds
  else
    let e := (n - 1)%Z in
    let es := (if (e <? 0)%Z then "-" else "+") ++ Z_digits (Z.abs e) in
    match ds with
    | String d EmptyString => String d ("e" ++ es)
    | String d rest => String d ("." ++ rest ++ "e" ++ es)
    | EmptyString => EmptyString
    end.

(** [String(x)] for a number.  Values are printed from their 17 leading
    significant digits (rounded), trailing zeros dropped; this is exact for
    every value with at most 17 significant digits, in particular for every
    value read from decimal text, which is what reaches this function. *)
Definition js_num_to_string (q : Q) : string :=
  if Qeq_bool q 0 then "0"
  else
    let a := Qabs q in
    let n := dec_exponent a in
    let s := Qfloor (a * Qpower 10 (17 - n) + (1 # 2)) in
    let '(s, n) := if (s =? 10 ^ 17)%Z then ((10 ^ 16)%Z, (n + 1)%Z) else (s, n) in
    let body := layout (Z_digits (strip_zeros 17 s)) n in
    if Qle_bool 0 q then body else "-" ++ body.

End JsNumber.

(* ------------------------------------------------------------------ *)
(** ** JS values and plain objects *)

Module Js.
Import JsString JsNumber.
Local Open Scope string_scope.

(** The values a row cell, an intermediate sum or a coefficient can hold.
    [VProto k] is the member [k] that every plain object inherits from
    [Object.prototype] ([constructor], [toString], ... or the prototype
    object itself for [__proto__]). *)
Inductive jsval : Type :=
| VNum (q : Q)
| VNaN
| VStr (s : string)
| VUndef
| VProto (k : string).

(** The own and accessor properties of [Object.prototype]. *)
Definition proto_names : list string :=
  ["constructor"; "__defineGetter__"; "__defineSetter__"; "hasOwnProperty";
   "__lookupGetter__"; "__lookupSetter__"; "isPrototypeOf";
   "propertyIsEnumerable"; "toString"; "valueOf"; "__proto__";
   "toLocaleString"].

Definition is_proto_name (k : string) : bool :=
  existsb (String.eqb k) proto_names.

(** [typeof v === 'number'] *)
Definition is_number (v : jsval) : bool :=
  match v with VNum _ | VNaN => true | _ => false end.

(** [String(v)] *)
Definition js_String (v : jsval) : string :=
  match v with
  | VNum q => js_num_to_string q
  | VNaN => "NaN"
  | VStr s => s
  | VUndef => "undefined"
  | VProto k =>
      if String.eqb k "__proto__" then "[object Object]"
      else if String.eqb k "constructor" then "function Object() { [native code] }"
      else "function " ++ k ++ "() { [native code] }"
  end.

(** [Number(v)]: [None] is NaN. *)
Definition js_ToNumber (v : jsval) : option Q :=
  match v with
  | VNum q => Some q
  | VStr s => js_Number s
  | VNaN | VUndef => None
  | VProto k => js_Number (js_String (VProto k))
  end.

Definition of_num (o : option Q) : jsval :=
  match o with Some q => VNum q | None => VNaN end.

(** Values whose primitive is a string ([ToPrimitive] of a function or of
    [Object.prototype] is its string form). *)
Definition prim_is_string (v : jsval) : bool :=
  match v with VStr _ | VProto _ => true | _ => false end.

(** Binary [a + b]. *)
Definition js_add (a b : jsval) : jsval :=
  if prim_is_string a || prim_is_string b then VStr (js_String a ++ js_String b)
  else match js_ToNumber a, js_ToNumber b with
       | Some x, Some y => VNum (x + y)
       | _, _ => VNaN
       end.

(** Binary [a * b] and [a - b]. *)
Definition js_mul (a b : jsval) : jsval :=
  match js_ToNumber a, js_ToNumber b with
  | Some x, Some y => VNum (x * y)
  | _, _ => VNaN
  end.

Definition js_sub (a b : jsval) : jsval :=
  match js_ToNumber a, js_ToNumber b with
  | Some x, Some y => VNum (x - y)
  | _, _ => VNaN
  end.


Definition Qlt_bool (x y : Q) : bool := negb (Qle_bool y x).

(** IsLessThan(a, b): [None] is the [undefined] outcome of a NaN operand. *)
Definition js_less (a b : jsval) : option bool :=
  if prim_is_string a && prim_is_string b
  then Some (str_lt (js_String a) (js_String b))
  else match js_ToNumber a, js_ToNumber b with
       | Some x, Some y => Some (Qlt_bool x y)
       | _, _ => None
       end.

Definition js_gt (a b : jsval) : bool :=
  match js_less b a with Some true => true | _ => false end.
Definition js_lt (a b : jsval) : bool :=
  match js_less a b with Some true => true | _ => false end.
Definition js_ge (a b : jsval) : bool :=
  match js_less a b with Some false => true | _ => false end.
Definition js_le (a b : jsval) : bool :=
  match js_less b a with Some false => true | _ => false end.

(** A plain object: its own string-keyed properties in creation order. *)
Definition js_obj := list (string * jsval).

Fixpoint obj_own (o : js_obj) (k : string) : option jsval :=
  match o with
  | (k', v) :: r => if String.eqb k k' then Some v else obj_own r k
  | [] => None
  end.

(** [o[k]] *)
Definition obj_get (o : js_obj) (k : string) : jsval :=
  match obj_own o k with
  | Some v => v
  | None => if is_proto_name k then VProto k else VUndef
  end.

(** Defines or overwrites the own property [k] in place. *)
Fixpoint obj_define (o : js_obj) (k : string) (v : jsval) : js_obj :=
  match o with
  | (k', v') :: r =>
      if String.eqb k k' then (k', v) :: r else (k', v') :: obj_define r k v
  | [] => [(k, v)]
  end.

(** The assignment [o[k] = v] of a primitive [v]: on an object without an
    own [__proto__] it reaches the inherited [__proto__] setter, which
    ignores primitives. *)
Definition obj_assign (o : js_obj) (k : string) (v : jsval) : js_obj :=
  if String.eqb k "__proto__" && negb (match obj_own o k with Some _ => true | None => false end)
  then o else obj_define o k v.

(** Canonical array index: "0" or a digit string without leading zero,
    below 2^32 - 1. *)
Definition array_index (k : string) : option Z :=
  match list_ascii_of_string k with
  | [] => None
  | "0"%char :: _ :: _ => None
  | l => match take_digits 10 0 0 l with
         | (v, _, []) => if (v <? 4294967295)%Z then Some v else None
         | _ => None
         end
  end.

Fixpoint insert_index (x : Z * string) (l : list (Z * string)) : list (Z * string) :=
  match l with
  | y :: r => if (fst x <=? fst y)%Z then x :: l else y :: insert_index x r
  | [] => [x]
  end.

(** [Object.keys(o)] and the key order of [Object.entries(o)]: array
    indices in ascending order, then the other keys in creation order. *)
Definition obj_keys {A : Type} (o : list (string * A)) : list string :=
  let ks := map fst o in
  let idx := fold_right (fun k acc => match array_index k with
                                      | Some i => insert_index (i, k) acc
                                      | None => acc end) [] ks in
  (map snd idx ++ filter (fun k => match array_index k with
                                   | Some _ => false | None => true end) ks)%list.

End Js.

(* ------------------------------------------------------------------ *)
(** ** types.ts *)

Module Types.
Import Js.

Inductive ChartType : Type := BAR | LINE | SCATTER | PIE | AREA.

Record ChartConfig : Type := {
  cc_id : string;
  cc_type : ChartType;
  cc_title : string;
  cc_description : string;
  xKey : string;
  yKey : string;
  categoryKey : option string
}.

Record ColumnProfile : Type := {
  cp_name : string;
  cp_type : string;              (* 'numeric' | 'categorical' | 'datetime' | 'text' *)
  cp_missingCount : Q;
  cp_uniqueCount : Q;
  cp_exampleValues : list string
}.

Record AnalysisResult : Type := {
  summary : string;
  columns : list ColumnProfile;
  recommendedCharts : list ChartConfig;
  insights : list string
}.

Record Dataset : Type := {
  ds_id : string;
  ds_name : string;
  ds_data : list js_obj;
  ds_rowCount : nat;
  ds_analysis : option AnalysisResult
}.

Record CorrelationMatrix : Type := {
  variables : list string;
  matrix : list (list jsval)
}.

Record QueryFilter : Type := {
  qf_column : string;
  qf_operator : string;          (* '==' | '>' | '<' | '>=' | '<=' | 'contains' *)
  qf_value : jsval               (* string | number *)
}.

Record QueryIntent : Type := {
  qi_type : string;              (* 'query' | 'chat' | 'clarification' *)
  qi_filters : option (list QueryFilter);
  qi_groupBy : option string;
  qi_aggregateColumn : option string;
  qi_aggregateType : option string; (* 'SUM' | 'AVG' | 'COUNT' | 'COUNT_DISTINCT' *)
  qi_chartType : option ChartType;
  qi_textResponse : option string;
  qi_title : option string
}.

(** A synchronous computation that returns a value or throws. *)
Inductive Throws (A : Type) : Type :=
| Ok (a : A)
| Throw (err : string).
Arguments Ok {A} a.
Arguments Throw {A} err.

End Types.

(* ------------------------------------------------------------------ *)
(** ** services/dataService.ts *)

Module DataService.
Import JsString JsNumber Js Types.
Local Open Scope string_scope.

(** *** parseCSV *)

(** One field of an accepted line:
    [currentLine[index]?.trim().replace(/^"|"$/g, '')], then
    [if (!isNaN(Number(value)) && value !== '') value = Number(value)]. *)
Definition parse_cell (field : string) : jsval :=
  let value := strip_quotes (trim field) in
  match js_Number value with
  | Some q => if String.eqb value EmptyString then VStr value else VNum q
  | None => VStr value
  end.

(** The header cells: [lines[0].split(',').map(h => h.trim().replace(...))]
    then the byte-order-mark test on the first one.  U+FEFF is not a code
    unit below 256, so in this model the test never fires. *)
Definition parse_headers (line : string) : list string :=
  let headers := map (fun h => strip_quotes (trim h)) (split_char comma line) in
  match headers with
  | String c r :: hs => if (Z.of_nat (nat_of_ascii c) =? 65279)%Z then r :: hs else headers
  | _ => headers
  end.

(** [headers.forEach((header, index) => { ... row[header] = value })] *)
Definition build_row (headers fields : list string) : js_obj :=
  fold_left (fun row hf => obj_assign row (fst hf) (parse_cell (snd hf)))
            (combine headers fields) [].

(** The loop over [lines[1..]]: a line is kept when its comma split has as
    many fields as there are headers. *)
Fixpoint accepted_rows (headers : list string) (lines : list string) : list js_obj :=
  match lines with
  | [] => []
  | l :: ls =>
      let currentLine := split_char comma l in
      if (length currentLine =? length headers)%nat
      then build_row headers currentLine :: accepted_rows headers ls
      else accepted_rows headers ls
  end.

Definition nonblank_lines (csvText : string) : list string :=
  filter (fun line => negb (String.eqb (trim line) EmptyString)) (split_lines csvText).

Definition row_limit : nat := 3000.

(** [parseCSV(csvText, fileName)]; [uuid] is the value returned by
    [crypto.randomUUID()]. *)
Definition parseCSV (uuid csvText fileName : string) : Throws Dataset :=
  match nonblank_lines csvText with
  | [] => Throw "File is empty"
  | l0 :: ls =>
      let headers := parse_headers l0 in
      let data := accepted_rows headers ls in
      Ok {| ds_id := uuid; ds_name := fileName;
            ds_data := firstn row_limit data;
            ds_rowCount := length data;
            ds_analysis := None |}
  end.

(** *** calculatePearson and calculateCorrelations *)

(** [Number((p / Math.sqrt(r)).toFixed(2))] for [r > 0], computed exactly.
    [toFixed(2)] writes [-] for a negative value and rounds the magnitude
    [x] to [k / 100] with [k = floor(100 x + 1/2)] (the larger [k] on a tie).
    With [m = floor(200 |p| / sqrt r) = Z.sqrt (floor (40000 p^2 / r))],
    [k = (m + 1) / 2] (integer division).  Magnitudes of [1e21] and more,
    which [toFixed] prints without rounding, are not distinguished. *)
Definition toFixed2_ratio_sqrt (p r : Q) : Q :=
  let m := Z.sqrt (Qfloor (40000 * (p * p) / r)) in
  let k := ((m + 1) / 2)%Z in
  if Qle_bool 0 p then Qred (Qmake k 100) else Qred (Qmake (- k) 100).

Definition sum_from (f : jsval -> jsval) (l : list jsval) : jsval :=
  fold_left (fun a b => js_add a (f b)) l (VNum 0).

(** [calculatePearson(x, y)] *)
Definition calculatePearson (x y : list jsval) : jsval :=
  let n := length x in
  if (n =? 0)%nat then VNum 0 else
  let vn := VNum (inject_Z (Z.of_nat n)) in
  let sumX := sum_from (fun b => b) x in
  let sumY := sum_from (fun b => b) y in
  let sumXY := fold_left (fun a bi => js_add a (js_mul (fst bi) (nth (snd bi) y VUndef)))
                         (combine x (seq 0 n)) (VNum 0) in
  let sumX2 := sum_from (fun b => js_mul b b) x in
  let sumY2 := sum_from (fun b => js_mul b b) y in
  let numerator := js_sub (js_mul vn sumXY) (js_mul sumX sumY) in
  let radicand := js_mul (js_sub (js_mul vn sumX2) (js_mul sumX sumX))
                         (js_sub (js_mul vn sumY2) (js_mul sumY sumY)) in
  (* [denominator = Math.sqrt(radicand)]; [denominator === 0 ? 0 : ...] *)
  match radicand with
  | VNum r =>
      if Qeq_bool r 0 then VNum 0
      else if Qlt_bool r 0 then VNaN            (* sqrt of a negative is NaN *)
      else match numerator with
           | VNum p => VNum (toFixed2_ratio_sqrt p r)
           | _ => VNaN
           end
  | _ => VNaN
  end.

(** [columns.filter(col => data.slice(0, 50).every(row => typeof row[col] === 'number'))] *)
Definition sample_size : nat := 50.

Definition numeric_columns (data : list js_obj) (columns : list string) : list string :=
  filter (fun col => forallb (fun row => is_number (obj_get row col)) (firstn sample_size data))
         columns.

Definition column_values (data : list js_obj) (col : string) : list jsval :=
  map (fun d => obj_get d col) data.

(** The cell [matrix[i][j]] of the double loop. *)
Definition corr_cell (data : list js_obj) (cols : list string) (i j : nat) : jsval :=
  if (i =? j)%nat then VNum 1
  else calculatePearson (column_values data (nth i cols EmptyString))
                        (column_values data (nth j cols EmptyString)).

(** [calculateCorrelations(data, columns)] *)
Definition calculateCorrelations (data : list js_obj) (columns : list string)
  : CorrelationMatrix :=
  let numericColumns := numeric_columns data columns in
  let k := length numericColumns in
  {| variables := numericColumns;
     matrix := map (fun i => map (fun j => corr_cell data numericColumns i j) (seq 0 k))
                   (seq 0 k) |}.

(** *** queryData *)

(** One filter predicate of [intent.filters.every(filter => ...)]. *)
Definition filter_pass (row : js_obj) (filter : QueryFilter) : bool :=
  let rowVal := obj_get row (qf_column filter) in
  let filterVal := qf_value filter in
  let op := qf_operator filter in
  if String.eqb op "==" then
    String.eqb (toLowerCase (js_String rowVal)) (toLowerCase (js_String filterVal))
  else if String.eqb op ">" then js_gt rowVal filterVal
  else if String.eqb op "<" then js_lt rowVal filterVal
  else if String.eqb op ">=" then js_ge rowVal filterVal
  else if String.eqb op "<=" then js_le rowVal filterVal
  else if String.eqb op "contains" then
    includes (toLowerCase (js_String rowVal)) (toLowerCase (js_String filterVal))
  else true.

(** Step 1: [if (intent.filters && intent.filters.length > 0) result = result.filter(...)]. *)
Definition filter_stage (data : list js_obj) (filters : option (list QueryFilter))
  : list js_obj :=
  match filters with
  | Some ((_ :: _) as fs) => filter (fun row => forallb (filter_pass row) fs) data
  | _ => data
  end.

(** The [groups] record: own properties in creation order. *)
Definition Groups := list (string * list Q).

(** [if (!groups[key]) groups[key] = []; groups[key].push(val);]
    A key that is not an own property but names a member inherited from
    [Object.prototype] reads as a function (or as the prototype object),
    which is truthy and has no [push] method. *)
Fixpoint groups_push (groups : Groups) (key : string) (val : Q) : Throws Groups :=
  match groups with
  | (k, vs) :: r =>
      if String.eqb key k then Ok ((k, (vs ++ [val])%list) :: r)
      else match groups_push r key val with
           | Ok r' => Ok ((k, vs) :: r')
           | Throw e => Throw e
           end
  | [] => if is_proto_name key then Throw "TypeError: groups[key].push is not a function"
          else Ok [(key, [val])]
  end.

(** [Number(x) || 0] *)
Definition num_or_zero (v : jsval) : Q :=
  match js_ToNumber v with
  | Some q => if Qeq_bool q 0 then 0 else q
  | None => 0
  end.

(** [result.forEach(row => { key = String(row[groupBy]); val = Number(row[aggregateColumn]) || 0; ... })] *)
Fixpoint collect_groups (groupBy aggregateColumn : string) (rows : list js_obj)
  (groups : Groups) : Throws Groups :=
  match rows with
  | [] => Ok groups
  | row :: rs =>
      let key := js_String (obj_get row groupBy) in
      let val := num_or_zero (obj_get row aggregateColumn) in
      match groups_push groups key val with
      | Ok g => collect_groups groupBy aggregateColumn rs g
      | Throw e => Throw e
      end
  end.

(** [new Set(values).size]: numbers are compared by value. *)
Fixpoint distinct_values (values : list Q) : list Q :=
  match values with
  | [] => []
  | v :: vs => let d := distinct_values vs in
               if existsb (Qeq_bool v) d then d else v :: d
  end.

Definition sumQ (values : list Q) : Q := fold_left Qplus values 0.

Definition lengthQ {A} (l : list A) : Q := inject_Z (Z.of_nat (length l)).

(** The [switch (intent.aggregateType)]; no case matches: 0. *)
Definition aggregate (aggregateType : string) (values : list Q) : Q :=
  if String.eqb aggregateType "SUM" then sumQ values
  else if String.eqb aggregateType "AVG" then sumQ values / lengthQ values
  else if String.eqb aggregateType "COUNT" then lengthQ values
  else if String.eqb aggregateType "COUNT_DISTINCT" then lengthQ (distinct_values values)
  else 0.

(** [Math.round(x * 100) / 100]; [Math.round] rounds halves up. *)
Definition round2 (x : Q) : Q := Qred (Qmake (Qfloor (x * 100 + (1 # 2))) 100).

(** [{ [groupBy]: key, [aggregateColumn]: round2(aggregatedValue) }] *)
Definition group_row (groupBy aggregateColumn : string) (key : string) (v : Q) : js_obj :=
  obj_define (obj_define [] groupBy (VStr key)) aggregateColumn (VNum v).

Fixpoint assoc {A} (d : A) (k : string) (l : list (string * A)) : A :=
  match l with
  | (k', v) :: r => if String.eqb k k' then v else assoc d k r
  | [] => d
  end.

(** [Object.entries(groups)] *)
Definition entries (groups : Groups) : list (string * list Q) :=
  map (fun k => (k, assoc [] k groups)) (obj_keys groups).

(** [Array.prototype.sort] with a comparator: a stable sort; [cmp a b > 0]
    puts [b] before [a], NaN counts as 0. *)
Definition cmp_positive (v : jsval) : bool :=
  match v with VNum q => Qlt_bool 0 q | _ => false end.

Fixpoint insert_by {A} (cmp : A -> A -> jsval) (x : A) (l : list A) : list A :=
  match l with
  | y :: r => if cmp_positive (cmp x y) then y :: insert_by cmp x r else x :: l
  | [] => [x]
  end.

Fixpoint js_sort {A} (cmp : A -> A -> jsval) (l : list A) : list A :=
  match l with
  | x :: r => insert_by cmp x (js_sort cmp r)
  | [] => []
  end.

(** [(a, b) => b[aggregateColumn] - a[aggregateColumn]] *)
Definition desc_by (aggregateColumn : string) (a b : js_obj) : jsval :=
  js_sub (obj_get b aggregateColumn) (obj_get a aggregateColumn).

(** Step 2: group, aggregate and sort. *)
Definition group_stage (rows : list js_obj) (groupBy aggregateColumn aggregateType : string)
  : Throws (list js_obj) :=
  match collect_groups groupBy aggregateColumn rows [] with
  | Throw e => Throw e
  | Ok groups =>
      let out := map (fun kv => group_row groupBy aggregateColumn (fst kv)
                                  (round2 (aggregate aggregateType (snd kv))))
                     (entries groups) in
      Ok (js_sort (desc_by aggregateColumn) out)
  end.

(** A truthy optional string. *)
Definition present (o : option string) : option string :=
  match o with
  | Some s => if String.eqb s EmptyString then None else Some s
  | None => None
  end.

Definition result_limit : nat := 50.

(** [queryData(data, intent)] *)
Definition queryData (data : list js_obj) (intent : QueryIntent) : Throws (list js_obj) :=
  let result := filter_stage data (qi_filters intent) in
  match present (qi_groupBy intent), present (qi_aggregateColumn intent),
        present (qi_aggregateType intent) with
  | Some g, Some a, Some t =>
      match group_stage result g a t with
      | Ok rows => Ok (firstn result_limit rows)
      | Throw e => Throw e
      end
  | _, _, _ => Ok (firstn result_limit result)
  end.

End DataService.

(* ------------------------------------------------------------------ *)
(** ** App.tsx: sanitizeAnalysisResult *)

Module App.
Import JsString Js Types.
Local Open Scope string_scope.

(** [findKey] inside [sanitizeAnalysisResult]. *)
Definition findKey (validKeys : list string) (key : string) : string :=
  if String.eqb key EmptyString then key                        (* if (!key) return key *)
  else if existsb (String.eqb key) validKeys then key           (* validKeys.includes(key) *)
  else match find (fun k => String.eqb (toLowerCase k) (toLowerCase key)) validKeys with
       | Some m => if String.eqb m EmptyString then key else m  (* match || key *)
       | None => key
       end.

Definition sanitize_chart (validKeys : list string) (chart : ChartConfig) : ChartConfig :=
  {| cc_id := cc_id chart; cc_type := cc_type chart; cc_title := cc_title chart;
     cc_description := cc_description chart;
     xKey := findKey validKeys (xKey chart);
     yKey := findKey validKeys (yKey chart);
     categoryKey := match categoryKey chart with
                    | Some k => if String.eqb k EmptyString then None
                                else Some (findKey validKeys k)
                    | None => None
                    end |}.

Definition is_valid_key (validKeys : list string) (k : string) : bool :=
  existsb (String.eqb k) validKeys.

(** [sanitizeAnalysisResult(result, dataset)] *)
Definition sanitizeAnalysisResult (result : AnalysisResult) (dataset : Dataset)
  : AnalysisResult :=
  match ds_data dataset with
  | [] => result
  | row0 :: _ =>
      let validKeys := obj_keys row0 in
      let sanitizedCharts :=
        filter (fun chart => is_valid_key validKeys (xKey chart)
                             && is_valid_key validKeys (yKey chart))
               (map (sanitize_chart validKeys) (recommendedCharts result)) in
      {| summary := summary result; columns := columns result;
         recommendedCharts := sanitizedCharts; insights := insights result |}
  end.

End App.

(* ------------------------------------------------------------------ *)
(** ** components/CorrelationHeatmap.tsx: what the caller renders *)

Module Heatmap.
Import Js Types DataService.
Local Open Scope string_scope.

Inductive HeatmapView : Type :=
| NotEnoughNumericData                   (* "Not enough numeric data for correlations" *)
| MatrixGrid (vars : list string) (m : list (list jsval)).

(** [columns.filter(c => c.type === 'numeric').map(c => c.name)] *)
Definition heatmap_columns (columns : list ColumnProfile) : list string :=
  map cp_name (filter (fun c => String.eqb (cp_type c) "numeric") columns).

Definition CorrelationHeatmap (data : list js_obj) (columns : list ColumnProfile)
  : HeatmapView :=
  let numericCols := heatmap_columns columns in
  let correlationData := calculateCorrelations data numericCols in
  if (length (variables correlationData) <? 2)%nat then NotEnoughNumericData
  else MatrixGrid (variables correlationData) (matrix correlationData).

End Heatmap.

(* ------------------------------------------------------------------ *)
(** ** Notions used by the statements *)

Module Notions.
Import JsString Js Types DataService.
Local Open Scope string_scope.

(** The rows [parseCSV] accepts before truncation. *)
Definition csv_accepted (csvText : string) : list js_obj :=
  match nonblank_lines csvText with
  | [] => []
  | l0 :: ls => accepted_rows (parse_headers l0) ls
  end.


(** The grouping vocabulary of the claims: a row's group key (the string
    form of its group-by value), its coerced aggregate value, the distinct
    keys, and the coerced values of one group in row order. *)
Definition group_key (groupBy : string) (row : js_obj) : string :=
  js_String (obj_get row groupBy).

Definition agg_value (aggregateColumn : string) (row : js_obj) : Q :=
  num_or_zero (obj_get row aggregateColumn).

Definition group_keys (groupBy : string) (rows : list js_obj) : list string :=
  nodup string_dec (map (group_key groupBy) rows).

Definition group_values (groupBy aggregateColumn : string) (rows : list js_obj) (k : string)
  : list Q :=
  map (agg_value aggregateColumn)
      (filter (fun row => String.eqb (group_key groupBy row) k) rows).

(** The output row for key [k] and value [v]: the group-by field holds the
    key and the aggregate field the value; when the two columns are the
    same field only the value remains. *)
Definition spec_row (groupBy aggregateColumn k : string) (v : Q) : js_obj :=
  if String.eqb groupBy aggregateColumn then [(aggregateColumn, VNum v)]
  else [(groupBy, VStr k); (aggregateColumn, VNum v)].

Definition spec_rows (groupBy aggregateColumn aggregateType : string) (rows : list js_obj)
  : list js_obj :=
  map (fun k => spec_row groupBy aggregateColumn k
                  (round2 (aggregate aggregateType (group_values groupBy aggregateColumn rows k))))
      (group_keys groupBy rows).

(** The numeric value a result row holds in the aggregate field. *)
Definition aggval (aggregateColumn : string) (row : js_obj) : Q :=
  match obj_get row aggregateColumn with VNum q => q | _ => 0 end.

(** Pearson's coefficient over the full columns, in exact arithmetic: the
    numerator [n Sxy - Sx Sy] and the square of the denominator
    [(n Sxx - Sx^2) (n Syy - Sy^2)], [n] the number of rows. *)
Fixpoint qsum (l : list Q) : Q :=
  match l with
  | [] => 0
  | x :: r => x + qsum r
  end.






(** The operators the filter switch names. *)
Definition known_operators : list string := ["=="; ">"; "<"; ">="; "<="; "contains"].

Definition filters_of (o : option (list QueryFilter)) : list QueryFilter :=
  match o with Some fs => fs | None => [] end.

(** Key resolution as the reconciliation rule words it: an exact match is
    kept, else the first case-insensitive match, else the name as given. *)
Definition resolve_key (validKeys : list string) (key : string) : string :=
  if existsb (String.eqb key) validKeys then key
  else match find (fun k => String.eqb (toLowerCase k) (toLowerCase key)) validKeys with
       | Some m => m
       | None => key
       end.

(** A chart with its keys resolved; an empty [categoryKey] is dropped. *)
Definition resolve_chart (validKeys : list string) (chart : ChartConfig) : ChartConfig :=
  {| cc_id := cc_id chart; cc_type := cc_type chart; cc_title := cc_title chart;
     cc_description := cc_description chart;
     xKey := resolve_key validKeys (xKey chart);
     yKey := resolve_key validKeys (yKey chart);
     categoryKey := match categoryKey chart with
                    | Some k => if String.eqb k EmptyString then None
                                else Some (resolve_key validKeys k)
                    | None => None
                    end |}.

End Notions.

(* ------------------------------------------------------------------ *)
(** ** Object spread and [delete] *)

Module JsObject.
Import Js.
Local Open Scope string_scope.

(** [{ ...o }]: the own enumerable properties of [o] copied, in the order
    of [Object.keys(o)], onto a fresh object ([CreateDataProperty], so a
    [__proto__] key is an ordinary property here). *)
Definition obj_spread (o : js_obj) : js_obj :=
  fold_left (fun acc k => obj_define acc k (obj_get o k)) (obj_keys o) [].

(** [delete o[k]]: removes the own property [k], if any. *)
Definition obj_delete (o : js_obj) (k : string) : js_obj :=
  filter (fun kv => negb (String.eqb (fst kv) k)) o.

(** [Object.values(o)] *)
Definition obj_values (o : js_obj) : list jsval :=
  map (obj_get o) (obj_keys o).

(** [k in o]: an own property or a member inherited from [Object.prototype]. *)
Definition js_in (k : string) (o : js_obj) : bool :=
  match obj_own o k with
  | Some _ => true
  | None => is_proto_name k
  end.

End JsObject.

(* ------------------------------------------------------------------ *)
(** ** components/FileUpload.tsx: processFile *)

Module FileUpload.
Import JsString Js Types DataService.
Local Open Scope string_scope.

Fixpoint prefixb (p l : list ascii) : bool :=
  match p, l with
  | [], _ => true
  | a :: p', b :: l' => Ascii.eqb a b && prefixb p' l'
  | _ :: _, [] => false
  end.

(** [s.endsWith(suffix)] *)
Definition ends_with (s suffix : string) : bool :=
  prefixb (rev (list_ascii_of_string suffix)) (rev (list_ascii_of_string s)).

(** What [processFile] leaves on screen: the error line of the upload
    card, or the dataset handed to [onDataLoaded]. *)
Inductive UploadOutcome : Type :=
| UploadError (msg : string)
| DataLoaded (ds : Dataset).

(** [processFile(file)] for a file of MIME type [fileType] and name
    [fileName]; [contents] is what the [FileReader] delivers ([None]: its
    [onerror]), [uuid] the value of [crypto.randomUUID()] in [parseCSV]. *)
Definition processFile (uuid fileType fileName : string) (contents : option string)
  : UploadOutcome :=
  if negb (String.eqb fileType "text/csv") && negb (ends_with fileName ".csv")
  then UploadError "Please upload a valid CSV file."
  else match contents with
       | None => UploadError "Error reading file."
       | Some text =>
           match parseCSV uuid text fileName with
           | Ok dataset => DataLoaded dataset
           | Throw _ => UploadError "Failed to parse CSV. Please check the file format."
           end
       end.

End FileUpload.

(* ------------------------------------------------------------------ *)
(** ** services/geminiService.ts: interpretUserQuery post-processing *)

Module IntentPost.
Import Js Types.
Local Open Scope string_scope.

(** [if (!isNaN(Number(f.value)) && f.operator !== 'contains') f.value = Number(f.value)] *)
Definition coerce_filter (f : QueryFilter) : QueryFilter :=
  match js_ToNumber (qf_value f) with
  | Some q =>
      if negb (String.eqb (qf_operator f) "contains")
      then {| qf_column := qf_column f; qf_operator := qf_operator f; qf_value := VNum q |}
      else f
  | None => f
  end.

(** [if (result.filters) result.filters.forEach(...)] on the parsed intent. *)
Definition postprocess_intent (result : QueryIntent) : QueryIntent :=
  {| qi_type := qi_type result;
     qi_filters := option_map (map coerce_filter) (qi_filters result);
     qi_groupBy := qi_groupBy result;
     qi_aggregateColumn := qi_aggregateColumn result;
     qi_aggregateType := qi_aggregateType result;
     qi_chartType := qi_chartType result;
     qi_textResponse := qi_textResponse result;
     qi_title := qi_title result |}.

End IntentPost.

(* ------------------------------------------------------------------ *)
(** ** components/ChartRenderer.tsx *)

Module ChartRenderer.
Import Js Types JsObject.
Local Open Scope string_scope.

(** [data.length > 2000 ? data.slice(0, 500) : data] *)
Definition chart_data (data : list js_obj) : list js_obj :=
  if (2000 <? length data)%nat then firstn 500 data else data.

(** [isValidKey] *)
Definition isValidKey (config : ChartConfig) (chartData : list js_obj) : bool :=
  match chartData with
  | [] => false
  | row0 :: _ => js_in (xKey config) row0 && js_in (yKey config) row0
  end.

Inductive ChartView : Type :=
| UnableToRender                       (* "Unable to render chart" *)
| ChartPlot (points : list js_obj).    (* the rows handed to the chart *)

(** What [ChartRenderer] draws: the placeholder, or the chart of its rows
    (the pie chart gets [chartData.slice(0, 10)]). *)
Definition ChartRenderer (config : ChartConfig) (data : list js_obj) : ChartView :=
  let chartData := chart_data data in
  if negb (isValidKey config chartData) || (length chartData =? 0)%nat then UnableToRender
  else match cc_type config with
       | PIE => ChartPlot (firstn 10 chartData)
       | _ => ChartPlot chartData
       end.

(** The drill-down of [handleClick] on the data point [payload]:
    [value = payload[config.xKey]; if (value !== undefined) onDrillDown(config.xKey, value)]. *)
Definition handleClick (config : ChartConfig) (payload : js_obj) : option (string * jsval) :=
  let value := obj_get payload (xKey config) in
  match value with
  | VUndef => None
  | _ => Some (xKey config, value)
  end.

End ChartRenderer.

(* ------------------------------------------------------------------ *)
(** ** components/Dashboard.tsx: drill-down filters and global search *)

Module Dashboard.
Import JsString JsNumber Js Types JsObject.
Local Open Scope string_scope.

(** [a == b] on the values a cell or a filter holds ([null] does not
    occur).  An object ([VProto]) is compared with a primitive through its
    string form. *)
Definition js_loose_eq (a b : jsval) : bool :=
  match a, b with
  | VNum x, VNum y => Qeq_bool x y
  | VStr s, VStr t => String.eqb s t
  | VUndef, VUndef => true
  | VProto k, VProto k' => String.eqb k k'
  | VNum x, VStr s | VStr s, VNum x =>
      match js_Number s with Some y => Qeq_bool x y | None => false end
  | VProto k, VStr s | VStr s, VProto k => String.eqb (js_String (VProto k)) s
  | VProto k, VNum x | VNum x, VProto k =>
      match js_Number (js_String (VProto k)) with Some y => Qeq_bool x y | None => false end
  | _, _ => false
  end.

(** [FilterState = Record<string, string | number>] *)
Definition FilterState := js_obj.

(** [Object.values(row).some(val => String(val).toLowerCase().includes(lowerTerm))] *)
Definition search_match (lowerTerm : string) (row : js_obj) : bool :=
  existsb (fun val => includes (toLowerCase (js_String val)) lowerTerm) (obj_values row).

(** [filteredData] *)
Definition filteredData (data : list js_obj) (searchTerm : string)
  (activeFilters : FilterState) : list js_obj :=
  let data1 := fold_left (fun d key =>
                   filter (fun row => js_loose_eq (obj_get row key) (obj_get activeFilters key)) d)
                 (obj_keys activeFilters) data in
  if String.eqb (trim searchTerm) EmptyString then data1
  else let lowerTerm := toLowerCase searchTerm in filter (search_match lowerTerm) data1.

(** [handleDrillDown]: [prev => ({ ...prev, [key]: value })] *)
Definition handleDrillDown (prev : FilterState) (key : string) (value : jsval) : FilterState :=
  obj_define (obj_spread prev) key value.

(** [removeFilter]: [newFilters = { ...activeFilters }; delete newFilters[key]] *)
Definition removeFilter (activeFilters : FilterState) (key : string) : FilterState :=
  obj_delete (obj_spread activeFilters) key.

End Dashboard.

(* ------------------------------------------------------------------ *)
(** ** components/DataStudio.tsx *)

Module DataStudio.
Import JsString JsNumber Js Types JsObject.
Local Open Scope string_scope.

Definition rowsPerPage : Z := 50.

(** [Math.ceil(data.length / rowsPerPage)] *)
Definition totalPages (len : nat) : Z := ((Z.of_nat len + rowsPerPage - 1) / rowsPerPage)%Z.

(** [l.slice(b, e)] *)
Definition js_slice {A : Type} (l : list A) (b e : Z) : list A :=
  let len := Z.of_nat (length l) in
  let from := if (b <? 0)%Z then Z.max (len + b) 0 else Z.min b len in
  let to := if (e <? 0)%Z then Z.max (len + e) 0 else Z.min e len in
  firstn (Z.to_nat (to - from)) (skipn (Z.to_nat from) l).

(** [data.slice((page - 1) * rowsPerPage, page * rowsPerPage)] *)
Definition paginatedData {A : Type} (data : list A) (page : Z) : list A :=
  js_slice data ((page - 1) * rowsPerPage)%Z (page * rowsPerPage)%Z.

(** The footer [Showing {((page-1)*rowsPerPage)+1}-{Math.min(page*rowsPerPage, data.length)}
    of {data.length} rows]: its first and last row numbers. *)
Definition showing_range (len : nat) (page : Z) : Z * Z :=
  ((page - 1) * rowsPerPage + 1, Z.min (page * rowsPerPage) (Z.of_nat len))%Z.

Inductive PageButton : Type := Previous | Next.

(** A click on a page button; a disabled button does nothing. *)
Definition page_click (len : nat) (page : Z) (b : PageButton) : Z :=
  match b with
  | Previous => if (page =? 1)%Z then page else Z.max 1 (page - 1)
  | Next => if (page =? totalPages len)%Z then page else Z.min (totalPages len) (page + 1)
  end.

(** The value [handleCellEdit] stores:
    [!isNaN(numVal) && value.trim() !== '' ? numVal : value]. *)
Definition edit_value (value : string) : jsval :=
  match js_Number value with
  | Some q => if negb (String.eqb (trim value) EmptyString) then VNum q else VStr value
  | None => VStr value
  end.

(** The studio's [data] array; [None] is a hole, read as [undefined]. *)
Definition StudioData := list (option js_obj).

(** [newData[i] = x]: inside the array it replaces element [i], past its
    end it extends the array with holes. *)
Definition array_set (l : StudioData) (i : nat) (x : js_obj) : StudioData :=
  if (i <? length l)%nat then (firstn i l ++ Some x :: skipn (S i) l)%list
  else (l ++ repeat None (i - length l) ++ [Some x])%list.

(** [handleCellEdit(rowIndex, key, value)] on page [page].  A negative
    [realIndex] or one from [2^32 - 1] on is not an array index: the
    assignment makes an ordinary property of the array and leaves its
    elements as they are. *)
Definition handleCellEdit (data : StudioData) (page rowIndex : Z) (key value : string)
  : StudioData :=
  let realIndex := ((page - 1) * rowsPerPage + rowIndex)%Z in
  if (realIndex <? 0)%Z || (4294967295 <=? realIndex)%Z then data
  else
    let i := Z.to_nat realIndex in
    let old := match nth_error data i with Some (Some r) => r | _ => [] end in
    array_set data i (obj_define (obj_spread old) key (edit_value value)).

End DataStudio.

(* ------------------------------------------------------------------ *)
(** ** components/AIChat.tsx *)

Module AIChat.
Import JsString Js Types DataService.
Local Open Scope string_scope.

Definition names_of_type (p : string -> bool) (columns : list ColumnProfile) : list string :=
  map cp_name (filter (fun c => p (cp_type c)) columns).

(** The suggestions of the welcome message, before [slice(0, 3)]'s bullets. *)
Definition welcome_suggestions (columns : list ColumnProfile) : list string :=
  let numericCols := names_of_type (fun t => String.eqb t "numeric") columns in
  let catCols := names_of_type (fun t => String.eqb t "categorical" || String.eqb t "text") columns in
  let dateCols := names_of_type (fun t => String.eqb t "datetime") columns in
  let s1 := if (0 <? length numericCols)%nat
            then ["What is the average **" ++ nth 0 numericCols EmptyString ++ "**?"]
            else if (0 <? length catCols)%nat
            then ["Count records by **" ++ nth 0 catCols EmptyString ++ "**"]
            else [] in
  let s2 := if (0 <? length dateCols)%nat && (0 <? length numericCols)%nat
            then ["Show **" ++ nth 0 numericCols EmptyString ++ "** trend over **"
                  ++ nth 0 dateCols EmptyString ++ "**"]
            else if (0 <? length catCols)%nat && (0 <? length numericCols)%nat
            then ["Top 5 **" ++ nth 0 catCols EmptyString ++ "** by **"
                  ++ nth 0 numericCols EmptyString ++ "**"]
            else if (1 <? length numericCols)%nat
            then ["Plot **" ++ nth 0 numericCols EmptyString ++ "** vs **"
                  ++ nth 1 numericCols EmptyString ++ "**"]
            else [] in
  let suggestions := (s1 ++ s2)%list in
  let suggestions := if (length suggestions <? 2)%nat
                     then (suggestions ++ ["Summarize the key insights"])%list
                     else suggestions in
  firstn 3 suggestions.

(** [aiMsg.chart] *)
Record ChatChart : Type := {
  chat_config : ChartConfig;
  chat_data : list js_obj
}.

Inductive ChatReply : Type :=
| AiMessage (content : string) (chart : option ChatChart)
| ErrorMessage (content : string).     (* [isError: true] *)

(** A truthy optional string, or the fallback. *)
Definition or_default (o : option string) (d : string) : string :=
  match o with
  | Some s => if String.eqb s EmptyString then d else s
  | None => d
  end.

(** The message [handleSend] appends once [interpretUserQuery] has given
    [intent].  [summary] is what [generateDataSummary] resolves to (it
    catches its own errors) and [chartId] the [chat-chart-...] id. *)
Definition handleSend_reply (data : list js_obj) (question : string) (intent : QueryIntent)
  (summary chartId : string) : ChatReply :=
  let content := or_default (qi_textResponse intent) "Here is what I found." in
  if String.eqb (qi_type intent) "query" then
    match present (qi_groupBy intent), present (qi_aggregateColumn intent) with
    | Some g, Some a =>
        match queryData data intent with
        | Throw _ => ErrorMessage "Sorry, I encountered an error processing your request."
        | Ok [] => AiMessage "I ran the query on your data, but no records matched your criteria." None
        | Ok resultData =>
            AiMessage summary
              (match qi_chartType intent with
               | Some ct =>
                   Some {| chat_config :=
                             {| cc_id := chartId; cc_type := ct;
                                cc_title := or_default (qi_title intent) "Analysis Result";
                                cc_description := "Generated from query: " ++ question;
                                xKey := g; yKey := a; categoryKey := None |};
                           chat_data := resultData |}
               | None => None
               end)
        end
    | _, _ => AiMessage content None
    end
  else AiMessage content None.

End AIChat.

(* ------------------------------------------------------------------ *)
(** ** components/AIChat.tsx: MarkdownText *)

Module MarkdownText.
Import JsString FileUpload.
Local Open Scope string_scope.

(** The line terminators that [.] does not match (the text is ASCII). *)
Definition is_line_terminator (c : ascii) : bool :=
  Ascii.eqb c "010"%char || Ascii.eqb c "013"%char.

Definition star_star : list ascii := ["*"%char; "*"%char].

(** [.*?\*\*] after the opening [**]: the length of the shortest run of
    characters other than line terminators that is followed by [**]. *)
Fixpoint lazy_close (r : list ascii) : option nat :=
  match r with
  | c :: r' =>
      if prefixb star_star r then Some 0%nat
      else if is_line_terminator c then None
      else option_map S (lazy_close r')
  | [] => None
  end.

(** The regular expression of [MarkdownText] (two asterisks, the shortest
    run of other characters than line terminators, two asterisks) tried at
    index [q] of [s]: the end index of the match. *)
Definition match_at (s : list ascii) (q : nat) : option nat :=
  let r := skipn q s in
  if prefixb star_star r
  then option_map (fun k => q + 2 + k + 2)%nat (lazy_close (skipn 2 r))
  else None.

(** The loop of [String.prototype.split] with a regular expression
    ([RegExp.prototype[@@split]]): [p] is the end of the last match and
    [q] the index tried.  The one capturing group is the whole match, so
    each match is pushed after the text before it. *)
Fixpoint split_loop (fuel : nat) (s : list ascii) (p q : nat) : list (list ascii) :=
  match fuel with
  | O => [skipn p s]
  | S f =>
      if (q <? length s)%nat then
        match match_at s q with
        | None => split_loop f s p (S q)
        | Some e =>
            if (e =? p)%nat then split_loop f s p (S q)
            else firstn (q - p) (skipn p s) :: firstn (e - q) (skipn q s)
                 :: split_loop f s e e
        end
      else [skipn p s]
  end.

(** [text.split(...)] with that expression as one capturing group; every step of the loop moves [q]
    forward, so [length + 1] steps suffice. *)
Definition md_split (text : string) : list string :=
  let s := list_ascii_of_string text in
  map string_of_list_ascii (split_loop (S (length s)) s 0 0).

Inductive MdNode : Type :=
| Strong (s : string)   (* <strong> *)
| Span (s : string).    (* <span> *)

(** [part.startsWith('**') && part.endsWith('**') ? <strong>{part.slice(2, -2)}</strong>
    : <span>{part}</span>]; a part that starts with [**] has at least two
    characters, so [slice(2, -2)] takes [length - 4] characters from index 2
    (none when the part is shorter than 4). *)
Definition md_node (part : string) : MdNode :=
  let l := list_ascii_of_string part in
  if prefixb star_star l && ends_with part "**"
  then Strong (string_of_list_ascii (firstn (length l - 2 - 2) (skipn 2 l)))
  else Span part.

Definition MarkdownText (text : string) : list MdNode := map md_node (md_split text).

End MarkdownText.

(* ================================================================== *)
(** * Properties *)

Module CorrelationProofs.
Import JsString Js Types DataService Heatmap Notions.
Local Open Scope string_scope.

Lemma filter_true {A} (l : list A) : filter (fun _ => true) l = l.
Proof. induction l as [|x l IH]; simpl; [reflexivity | now rewrite IH]. Qed.

Lemma numeric_columns_nil (columns : list string) : numeric_columns [] columns = columns.
Proof. unfold numeric_columns; simpl. apply filter_true. Qed.

Lemma calculateCorrelations_dims (data : list js_obj) (columns : list string) :
  length (matrix (calculateCorrelations data columns))
    = length (variables (calculateCorrelations data columns))
  /\ Forall (fun r => length r = length (variables (calculateCorrelations data columns)))
            (matrix (calculateCorrelations data columns)).
Proof.
  unfold calculateCorrelations; simpl. split.
  - now rewrite length_map, length_seq.
  - apply Forall_forall. intros r Hr. apply in_map_iff in Hr as (i & <- & _).
    now rewrite length_map, length_seq.
Qed.

(** C10: on an empty row sequence every candidate is kept; the diagonal is
    1 and every other coefficient is 0 (Pearson over zero rows). *)
Theorem correlations_empty_rows (columns : list string) :
  calculateCorrelations [] columns =
  {| variables := columns;
     matrix := map (fun i => map (fun j => if (i =? j)%nat then VNum 1 else VNum 0)
                                 (seq 0 (length columns)))
                   (seq 0 (length columns)) |}.
Proof.
  unfold calculateCorrelations. rewrite numeric_columns_nil. f_equal.
  (* [corr_cell [] columns i j] is [calculatePearson [] []] off the diagonal *)
Qed.

(** C9: a candidate is a variable of the result exactly when it is a
    candidate and each of the first 50 rows holds a number under it; the
    matrix has one row and one column per variable, nothing else. *)
Theorem correlation_variables_sampled (data : list js_obj) (columns : list string) (c : string) :
  (In c (variables (calculateCorrelations data columns)) <->
   In c columns /\ (forall row, In row (firstn 50 data) -> is_number (obj_get row c) = true))
  /\ length (matrix (calculateCorrelations data columns))
       = length (variables (calculateCorrelations data columns))
  /\ Forall (fun r => length r = length (variables (calculateCorrelations data columns)))
            (matrix (calculateCorrelations data columns)).
Proof.
  split; [| apply calculateCorrelations_dims].
  unfold calculateCorrelations, numeric_columns; simpl.
  now rewrite filter_In, forallb_forall.
Qed.

Lemma matrix_small (data : list js_obj) (columns : list string) :
  (length (variables (calculateCorrelations data columns)) < 2)%nat ->
  matrix (calculateCorrelations data columns) = []
  \/ matrix (calculateCorrelations data columns) = [[VNum 1]].
Proof.
  unfold calculateCorrelations; simpl.
  destruct (numeric_columns data columns) as [|c [|c' r]]; simpl; intro H.
  - now left.
  - now right.
  - lia.
Qed.

(** C2 (as the code does it): the engine has no error result; with fewer
    than two numeric columns it returns a 0x0 or 1x1 matrix, and its caller
    [CorrelationHeatmap] tests [variables.length < 2] and shows its
    "Not enough numeric data" message instead of a matrix. *)
Theorem correlations_insufficient_data (data : list js_obj) (columns : list string)
  (H : (length (variables (calculateCorrelations data columns)) < 2)%nat) :
  (matrix (calculateCorrelations data columns) = []
   \/ matrix (calculateCorrelations data columns) = [[VNum 1]])
  /\ (forall cols, heatmap_columns cols = columns ->
                   CorrelationHeatmap data cols = NotEnoughNumericData).
Proof.
  split; [now apply matrix_small |].
  intros cols Hc. unfold CorrelationHeatmap. rewrite Hc.
  apply Nat.ltb_lt in H. now rewrite H.
Qed.

Lemma correlations_insufficient_data_witness :
  (length (variables (calculateCorrelations [] ["a"])) < 2)%nat
  /\ ((matrix (calculateCorrelations [] ["a"]) = []
       \/ matrix (calculateCorrelations [] ["a"]) = [[VNum 1]])
      /\ (forall cols, heatmap_columns cols = ["a"] ->
                       CorrelationHeatmap [] cols = NotEnoughNumericData)).
Proof.
  assert (H : (length (variables (calculateCorrelations [] ["a"])) < 2)%nat)
    by (vm_compute; lia).
  split; [exact H | exact (correlations_insufficient_data [] ["a"] H)].
Defined.

(** C2, as stated, fails: with one numeric candidate the engine returns a
    1x1 matrix, and its result type has no "insufficient data" case. *)
Lemma correlations_one_column_matrix :
  calculateCorrelations [] ["a"] = {| variables := ["a"]; matrix := [[VNum 1]] |}.
Proof. vm_compute. reflexivity. Qed.

End CorrelationProofs.

Module ParseProofs.
Import JsString JsNumber Js Types DataService Notions.
Local Open Scope string_scope.

(** C6: [parseCSV] keeps the first 3000 accepted rows and records the
    number of accepted rows as the dataset's total row count. *)
Theorem parseCSV_row_limit (uuid csvText fileName : string) :
  match parseCSV uuid csvText fileName with
  | Ok d =>
      ds_rowCount d = length (csv_accepted csvText)
      /\ ds_data d = firstn 3000 (csv_accepted csvText)
      /\ ((length (csv_accepted csvText) <= 3000)%nat ->
          ds_data d = csv_accepted csvText
          /\ length (ds_data d) = length (csv_accepted csvText))
      /\ ((3000 < length (csv_accepted csvText))%nat -> length (ds_data d) = 3000%nat)
  | Throw _ => nonblank_lines csvText = []
  end.
Proof.
  unfold parseCSV, csv_accepted, row_limit.
  destruct (nonblank_lines csvText) as [|l0 ls]; [reflexivity |]. cbn [ds_rowCount ds_data].
  set (rows := accepted_rows (parse_headers l0) ls).
  split; [reflexivity |]. split; [reflexivity |]. split.
  - intro H. rewrite firstn_all2 by exact H. split; reflexivity.
  - intro H. rewrite length_firstn. lia.
Qed.

End ParseProofs.

Module QueryFilterProofs.
Import JsString Js Types DataService Notions.
Local Open Scope string_scope.

Lemma filter_stage_as_filter (rows : list js_obj) (filters : option (list QueryFilter)) :
  filter_stage rows filters
  = filter (fun row => forallb (filter_pass row) (filters_of filters)) rows.
Proof.
  destruct filters as [[|f0 fs]|]; simpl; try reflexivity;
    symmetry; apply CorrelationProofs.filter_true.
Qed.

(** C5: a row survives the filter stage exactly when every filter passes;
    [==] compares the lower-cased string forms; an operator the switch does
    not name lets the row pass. *)
Theorem filter_stage_conjunction (rows : list js_obj) (filters : option (list QueryFilter))
  (row : js_obj) :
  (In row (filter_stage rows filters) <->
   In row rows /\ (forall f, In f (filters_of filters) -> filter_pass row f = true))
  /\ (forall f, qf_operator f = "==" ->
        (filter_pass row f = true <->
         toLowerCase (js_String (obj_get row (qf_column f)))
         = toLowerCase (js_String (qf_value f))))
  /\ (forall f, ~ In (qf_operator f) known_operators -> filter_pass row f = true).
Proof.
  split; [| split].
  - rewrite filter_stage_as_filter, filter_In, forallb_forall. reflexivity.
  - intros f Hop. unfold filter_pass. rewrite Hop. simpl. apply String.eqb_eq.
  - intros f Hop. unfold filter_pass.
    destruct (String.eqb_spec (qf_operator f) "==") as [e|];
      [exfalso; apply Hop; rewrite e; simpl; tauto |].
    destruct (String.eqb_spec (qf_operator f) ">") as [e|];
      [exfalso; apply Hop; rewrite e; simpl; tauto |].
    destruct (String.eqb_spec (qf_operator f) "<") as [e|];
      [exfalso; apply Hop; rewrite e; simpl; tauto |].
    destruct (String.eqb_spec (qf_operator f) ">=") as [e|];
      [exfalso; apply Hop; rewrite e; simpl; tauto |].
    destruct (String.eqb_spec (qf_operator f) "<=") as [e|];
      [exfalso; apply Hop; rewrite e; simpl; tauto |].
    destruct (String.eqb_spec (qf_operator f) "contains") as [e|];
      [exfalso; apply Hop; rewrite e; simpl; tauto |].
    reflexivity.
Qed.

End QueryFilterProofs.

Module SanitizeProofs.
Import JsString Js Types App Notions.
Local Open Scope string_scope.

Lemma toLowerCase_empty (s : string) : toLowerCase s = EmptyString -> s = EmptyString.
Proof. destruct s; simpl; congruence. Qed.

Lemma findKey_resolve_key (validKeys : list string) (key : string) :
  findKey validKeys key = resolve_key validKeys key.
Proof.
  unfold findKey, resolve_key.
  destruct (String.eqb_spec key EmptyString) as [->|Hne].
  - destruct (existsb (String.eqb EmptyString) validKeys) eqn:Hex; [reflexivity |].
    destruct (find _ validKeys) as [m|] eqn:Hf; [| reflexivity].
    apply find_some in Hf as [Hin Hm]. apply String.eqb_eq, toLowerCase_empty in Hm.
    subst m. exfalso.
    assert (existsb (String.eqb EmptyString) validKeys = true)
      by (apply existsb_exists; exists EmptyString; split; [exact Hin | apply String.eqb_refl]).
    congruence.
  - destruct (existsb (String.eqb key) validKeys); [reflexivity |].
    destruct (find _ validKeys) as [m|] eqn:Hf; [| reflexivity].
    destruct (String.eqb_spec m EmptyString) as [->|]; [| reflexivity].
    apply find_some in Hf as [_ Hm]. apply String.eqb_eq in Hm.
    simpl in Hm. symmetry in Hm. apply toLowerCase_empty in Hm. contradiction.
Qed.

Lemma sanitize_chart_resolve (validKeys : list string) (chart : ChartConfig) :
  sanitize_chart validKeys chart = resolve_chart validKeys chart.
Proof.
  unfold sanitize_chart, resolve_chart. rewrite !findKey_resolve_key.
  destruct (categoryKey chart) as [k|]; [rewrite findKey_resolve_key |]; reflexivity.
Qed.

(** C1 (as the code does it): with no rows the result is returned as it
    is; otherwise every chart's xKey, yKey and non-empty categoryKey are
    resolved against [Object.keys] of the first row (exact match, else
    first case-insensitive match, else unchanged; an empty categoryKey is
    removed), and exactly the charts whose resolved xKey and yKey are keys
    of the first row are kept, in order. *)
Theorem sanitize_resolves_keys (result : AnalysisResult) (dataset : Dataset) :
  match ds_data dataset with
  | [] => sanitizeAnalysisResult result dataset = result
  | row0 :: _ =>
      recommendedCharts (sanitizeAnalysisResult result dataset)
      = filter (fun c => is_valid_key (obj_keys row0) (xKey c)
                         && is_valid_key (obj_keys row0) (yKey c))
               (map (resolve_chart (obj_keys row0)) (recommendedCharts result))
      /\ (forall c, In c (recommendedCharts (sanitizeAnalysisResult result dataset)) ->
            In (xKey c) (obj_keys row0) /\ In (yKey c) (obj_keys row0))
      /\ summary (sanitizeAnalysisResult result dataset) = summary result
      /\ columns (sanitizeAnalysisResult result dataset) = columns result
      /\ insights (sanitizeAnalysisResult result dataset) = insights result
  end.
Proof.
  unfold sanitizeAnalysisResult.
  destruct (ds_data dataset) as [|row0 rest]; [reflexivity |]. cbn.
  assert (Hm : map (sanitize_chart (obj_keys row0)) (recommendedCharts result)
               = map (resolve_chart (obj_keys row0)) (recommendedCharts result))
    by (apply map_ext; apply sanitize_chart_resolve).
  rewrite Hm. split; [reflexivity |]. split; [| repeat split].
  intros ch Hc. apply filter_In in Hc as [_ Hc].
  apply andb_prop in Hc as [Hx Hy]. unfold is_valid_key in Hx, Hy.
  apply existsb_exists in Hx as (k1 & Hk1 & E1).
  apply existsb_exists in Hy as (k2 & Hk2 & E2).
  apply String.eqb_eq in E1, E2. subst. split; assumption.
Qed.

Definition region_chart : ChartConfig :=
  {| cc_id := "c1"; cc_type := BAR; cc_title := "Sales by region";
     cc_description := "bar"; xKey := "Region "; yKey := "sales";
     categoryKey := None |}.

Definition region_dataset : Dataset :=
  {| ds_id := "id"; ds_name := "sales.csv";
     ds_data := [[("region", VStr "north"); ("sales", VNum 10)]];
     ds_rowCount := 1; ds_analysis := None |}.

(** C1, as stated, fails: matching ignores case only, not white space, so
    xKey "Region " against the column "region" stays unresolved and the
    chart is dropped. *)
Lemma sanitize_trailing_space_not_resolved :
  findKey ["region"; "sales"] "Region " = "Region "
  /\ recommendedCharts
       (sanitizeAnalysisResult
          {| summary := "s"; columns := []; recommendedCharts := [region_chart];
             insights := [] |} region_dataset) = [].
Proof. split; vm_compute; reflexivity. Qed.

End SanitizeProofs.

Module CellProofs.
Import JsString JsNumber Js Types DataService Notions.
Local Open Scope string_scope.

Lemma list_ascii_of_string_append (a b : string) :
  list_ascii_of_string (a ++ b) = (list_ascii_of_string a ++ list_ascii_of_string b)%list.
Proof. induction a as [|c a IH]; simpl; [reflexivity | now rewrite IH]. Qed.






End CellProofs.

Module QueryProofs.
Import JsString Js Types DataService Notions.
Local Open Scope string_scope.

Definition sum_intent (g a : string) : QueryIntent :=
  {| qi_type := "query"; qi_filters := Some []; qi_groupBy := Some g;
     qi_aggregateColumn := Some a; qi_aggregateType := Some "SUM";
     qi_chartType := None; qi_textResponse := None; qi_title := None |}.

(** C4 fails on a group key named like an [Object.prototype] member: the
    [groups] record reads [groups["constructor"]] as the inherited
    function, skips the initialisation and calls [push] on it. *)
Lemma queryData_constructor_key_throws :
  queryData [[("cat", VStr "constructor"); ("v", VNum 1)]] (sum_intent "cat" "v")
  = Throw "TypeError: groups[key].push is not a function".
Proof. vm_compute. reflexivity. Qed.

Lemma queryData_at_most_50 (data : list js_obj) (intent : QueryIntent) :
  match queryData data intent with
  | Ok rows => (length rows <= 50)%nat
  | Throw _ => True
  end.
Proof.
  unfold queryData.
  destruct (present (qi_groupBy intent)), (present (qi_aggregateColumn intent)),
           (present (qi_aggregateType intent));
    try (destruct (group_stage _ _ _ _); [| exact I]);
    apply firstn_le_length.
Qed.

Definition rows80 : list js_obj :=
  map (fun i => [("cat", VStr ("g" ++ JsNumber.Z_digits (Z.of_nat i))); ("v", VNum 1)])
      (seq 0 80).

Lemma queryData_80_groups :
  match queryData rows80 (sum_intent "cat" "v") with
  | Ok rows => length rows = 50%nat
  | Throw _ => False
  end.
Proof. vm_compute. reflexivity. Qed.

End QueryProofs.

Module GroupProofs.
Import JsString Js Types DataService Notions.
Local Open Scope string_scope.

(** [Object.keys] lists the own keys, each once. *)
Definition is_index (k : string) : bool :=
  match array_index k with Some _ => true | None => false end.

Lemma insert_index_perm (x : Z * string) (l : list (Z * string)) :
  Permutation (insert_index x l) (x :: l).
Proof.
  induction l as [| y r IH]; simpl; [reflexivity |].
  destruct (fst x <=? fst y)%Z; [reflexivity |].
  eapply perm_trans; [apply perm_skip, IH | apply perm_swap].
Qed.

Lemma filter_split {A} (f h : A -> bool) (l : list A) :
  (forall x, h x = negb (f x)) -> Permutation (filter f l ++ filter h l) l.
Proof.
  intro Hh. induction l as [| x r IH]; simpl; [reflexivity |].
  rewrite Hh. destruct (f x); simpl.
  - now apply perm_skip.
  - eapply perm_trans; [apply Permutation_sym, Permutation_middle |]. now apply perm_skip.
Qed.

Lemma index_fold_perm (ks : list string) :
  Permutation (map snd (fold_right (fun k acc => match array_index k with
                                                 | Some i => insert_index (i, k) acc
                                                 | None => acc end) [] ks))
              (filter is_index ks).
Proof.
  induction ks as [| k r IH]; cbn [fold_right filter]; [reflexivity |].
  unfold is_index at 1. destruct (array_index k) as [i |]; [| exact IH].
  eapply perm_trans; [apply Permutation_map, insert_index_perm |].
  simpl. now apply perm_skip.
Qed.

Lemma obj_keys_perm {A} (o : list (string * A)) : Permutation (obj_keys o) (map fst o).
Proof.
  unfold obj_keys.
  eapply perm_trans; [apply Permutation_app_tail, index_fold_perm |].
  apply filter_split. intro k. unfold is_index. now destruct (array_index k).
Qed.

Lemma map_assoc_keys (G : Groups) :
  NoDup (map fst G) -> map (fun k => (k, assoc [] k G)) (map fst G) = G.
Proof.
  induction G as [| [k v] r IH]; simpl; intro Hnd; [reflexivity |].
  inversion Hnd as [| ? ? Hnin Hnd']; subst.
  rewrite String.eqb_refl. f_equal.
  transitivity (map (fun k0 => (k0, assoc [] k0 r)) (map fst r)); [| exact (IH Hnd')].
  apply map_ext_in. intros k' Hk'.
  destruct (String.eqb_spec k' k) as [-> | _]; [contradiction | reflexivity].
Qed.

Lemma entries_perm (G : Groups) : NoDup (map fst G) -> Permutation (entries G) G.
Proof.
  intro Hnd. unfold entries.
  rewrite <- (map_assoc_keys G Hnd) at 2.
  apply Permutation_map, obj_keys_perm.
Qed.

(** One [push] into the [groups] record, for a key that is not an
    [Object.prototype] member name. *)
Lemma groups_push_ok (G : Groups) (key : string) (val : Q) :
  is_proto_name key = false ->
  exists G', groups_push G key val = Ok G'
    /\ (forall k, assoc [] k G' = (assoc [] k G ++ (if String.eqb k key then [val] else []))%list)
    /\ (forall k, In k (map fst G') <-> In k (map fst G) \/ k = key)
    /\ (NoDup (map fst G) -> NoDup (map fst G')).
Proof.
  intro Hk. induction G as [| [k0 vs] r IH]; cbn [groups_push].
  - rewrite Hk. eexists; split; [reflexivity |]. split; [| split].
    + intro k. simpl. now destruct (String.eqb k key).
    + intro k. simpl. split.
      * intros [H | []]. right. now symmetry.
      * intros [[] | ->]. now left.
    + intros _. constructor; [intros [] | constructor].
  - destruct (String.eqb_spec key k0) as [-> | Hne].
    + eexists; split; [reflexivity |]. split; [| split].
      * intro k. simpl. destruct (String.eqb_spec k k0); [reflexivity |].
        now rewrite app_nil_r.
      * intro k. simpl. split; [tauto |]. intros [H | ->]; [exact H | now left].
      * intro H. exact H.
    + destruct IH as (r' & E & Ha & Hi & Hn). rewrite E.
      eexists; split; [reflexivity |]. split; [| split].
      * intro k. simpl. destruct (String.eqb_spec k k0) as [-> | Hk0].
        -- destruct (String.eqb_spec k0 key); [congruence | now rewrite app_nil_r].
        -- apply Ha.
      * intro k. simpl. rewrite Hi. tauto.
      * intro Hnd. simpl in Hnd |- *. inversion Hnd; subst.
        constructor; [| now apply Hn].
        rewrite Hi. intros [H | H]; [contradiction | congruence].
Qed.

(** The [forEach] loop over the rows. *)
Lemma collect_groups_ok (g a : string) (rows : list js_obj) (G : Groups) :
  (forall row, In row rows -> is_proto_name (group_key g row) = false) ->
  exists G', collect_groups g a rows G = Ok G'
    /\ (forall k, assoc [] k G' = (assoc [] k G ++ group_values g a rows k)%list)
    /\ (forall k, In k (map fst G') <-> In k (map fst G) \/ In k (map (group_key g) rows))
    /\ (NoDup (map fst G) -> NoDup (map fst G')).
Proof.
  revert G. induction rows as [| row rs IH]; intros G Hk; cbn [collect_groups].
  - exists G. split; [reflexivity |]. split; [| split].
    + intro k. now rewrite app_nil_r.
    + intro k. simpl. tauto.
    + auto.
  - destruct (groups_push_ok G (group_key g row) (agg_value a row))
      as (G1 & E1 & A1 & I1 & N1); [apply Hk; now left |].
    unfold group_key, agg_value in E1. rewrite E1.
    destruct (IH G1 (fun r H => Hk r (or_intror H))) as (G2 & E2 & A2 & I2 & N2).
    exists G2. split; [exact E2 |]. split; [| split].
    + intro k. rewrite A2, A1, <- app_assoc. f_equal.
      unfold group_values. cbn [filter].
      destruct (String.eqb_spec k (group_key g row)) as [-> | Hne].
      * rewrite String.eqb_refl. reflexivity.
      * destruct (String.eqb_spec (group_key g row) k); [congruence | reflexivity].
    + intro k. rewrite I2, I1. cbn [map In]. split.
      * intros [[H | H] | H]; [now left | right; left; now symmetry | now right; right].
      * intros [H | [H | H]]; [now left; left | left; right; now symmetry | now right].
    + intro Hnd. now apply N2, N1.
Qed.

Lemma group_row_spec (g a k : string) (v : Q) : group_row g a k v = spec_row g a k v.
Proof.
  unfold group_row, spec_row. simpl.
  destruct (String.eqb_spec a g) as [-> | Hne]; [now rewrite String.eqb_refl |].
  destruct (String.eqb_spec g a); [congruence | reflexivity].
Qed.

Lemma spec_row_get (g a k : string) (v : Q) : obj_get (spec_row g a k v) a = VNum v.
Proof.
  unfold spec_row, obj_get. destruct (String.eqb_spec g a) as [-> | Hne]; simpl.
  - now rewrite String.eqb_refl.
  - destruct (String.eqb_spec a g); [congruence |]. now rewrite String.eqb_refl.
Qed.

(** Insertion sort with the descending comparator. *)
Definition desc_rel (a : string) (x y : js_obj) : Prop := aggval a y <= aggval a x.

Definition has_num (a : string) (row : js_obj) : Prop := exists q, obj_get row a = VNum q.

Lemma insert_by_perm {A} (cmp : A -> A -> jsval) (x : A) (l : list A) :
  Permutation (insert_by cmp x l) (x :: l).
Proof.
  induction l as [| y r IH]; simpl; [reflexivity |].
  destruct (cmp_positive (cmp x y)); [| reflexivity].
  eapply perm_trans; [apply perm_skip, IH | apply perm_swap].
Qed.

Lemma js_sort_perm {A} (cmp : A -> A -> jsval) (l : list A) : Permutation (js_sort cmp l) l.
Proof.
  induction l as [| x r IH]; simpl; [reflexivity |].
  eapply perm_trans; [apply insert_by_perm | now apply perm_skip].
Qed.

Lemma desc_by_cases (a : string) (x y : js_obj) :
  has_num a x -> has_num a y ->
  (cmp_positive (desc_by a x y) = true -> aggval a x < aggval a y)
  /\ (cmp_positive (desc_by a x y) = false -> aggval a y <= aggval a x).
Proof.
  intros [qx Hx] [qy Hy]. unfold desc_by, aggval, cmp_positive, Qlt_bool.
  rewrite Hx, Hy. simpl. split; intro H.
  - apply Bool.negb_true_iff in H.
    assert (H' : ~ qy - qx <= 0) by (intro C; apply Qle_bool_iff in C; congruence).
    apply Qnot_le_lt in H'. lra.
  - apply Bool.negb_false_iff, Qle_bool_iff in H. lra.
Qed.

Lemma insert_by_hdrel (a : string) (x y : js_obj) (r : list js_obj) :
  desc_rel a y x -> HdRel (desc_rel a) y r -> HdRel (desc_rel a) y (insert_by (desc_by a) x r).
Proof.
  intros Hyx Hr. destruct r as [| z r]; simpl; [now constructor |].
  destruct (cmp_positive (desc_by a x z)); constructor; [now inversion Hr | exact Hyx].
Qed.

Lemma insert_by_sorted (a : string) (x : js_obj) (l : list js_obj) :
  has_num a x -> Forall (has_num a) l -> Sorted (desc_rel a) l ->
  Sorted (desc_rel a) (insert_by (desc_by a) x l).
Proof.
  intro Hx. induction l as [| y r IH]; intros Hl Hs; simpl; [now repeat constructor |].
  inversion Hl as [| ? ? Hy Hr]; subst. inversion Hs as [| ? ? Hsr Hhd]; subst.
  destruct (desc_by_cases a x y Hx Hy) as [Hlt Hge].
  destruct (cmp_positive (desc_by a x y)) eqn:E.
  - constructor; [now apply IH |]. apply insert_by_hdrel; [| exact Hhd].
    unfold desc_rel. apply Qlt_le_weak, Hlt. reflexivity.
  - constructor; [now constructor |]. constructor. exact (Hge eq_refl).
Qed.

Lemma js_sort_sorted (a : string) (l : list js_obj) :
  Forall (has_num a) l -> Sorted (desc_rel a) (js_sort (desc_by a) l).
Proof.
  induction l as [| x r IH]; intro Hl; simpl; [constructor |].
  inversion Hl as [| ? ? Hx Hr]; subst.
  apply insert_by_sorted; [exact Hx | | now apply IH].
  apply Forall_forall. intros y Hy.
  apply (Permutation_in _ (js_sort_perm (desc_by a) r)) in Hy.
  now apply (proj1 (Forall_forall _ _) Hr).
Qed.

(** Step 2 of [queryData] when no group key is an [Object.prototype]
    member name. *)
Lemma group_stage_spec (rows : list js_obj) (g a t : string) :
  (forall row, In row rows -> is_proto_name (group_key g row) = false) ->
  exists out, group_stage rows g a t = Ok out
    /\ Permutation out (spec_rows g a t rows)
    /\ Sorted (desc_rel a) out.
Proof.
  intro Hk. unfold group_stage.
  destruct (collect_groups_ok g a rows [] Hk) as (G & E & A & I & N).
  rewrite E. eexists; split; [reflexivity |].
  specialize (N (NoDup_nil _)).
  set (F := fun kv : string * list Q =>
              group_row g a (fst kv) (round2 (aggregate t (snd kv)))).
  assert (Hkeys : Permutation (map fst G) (group_keys g rows)).
  { apply NoDup_Permutation; [exact N | apply NoDup_nodup |].
    intro k. unfold group_keys. rewrite nodup_In, I. simpl. tauto. }
  assert (Hout : Permutation (map F (entries G)) (spec_rows g a t rows)).
  { eapply perm_trans; [apply Permutation_map, entries_perm, N |].
    rewrite <- (map_assoc_keys G N), map_map.
    unfold spec_rows. eapply perm_trans; [| apply Permutation_map, Hkeys].
    apply Permutation_refl'. apply map_ext. intro k.
    unfold F. simpl. rewrite A. simpl. apply group_row_spec. }
  split.
  - eapply perm_trans; [apply js_sort_perm | exact Hout].
  - apply js_sort_sorted. apply Forall_forall. intros row Hrow.
    apply (Permutation_in _ Hout) in Hrow. unfold spec_rows in Hrow.
    apply in_map_iff in Hrow as (k & <- & _).
    eexists. apply spec_row_get.
Qed.







End GroupProofs.

Module PearsonProofs.
Import JsString Js Types DataService Notions.
Local Open Scope string_scope.
Local Open Scope Q_scope.





Lemma fold_qsum {A : Type} (g : A -> Q) (xs : list A) (acc : Q) :
  fold_left (fun a x => a + g x) xs acc == acc + qsum (map g xs).
Proof.
  revert acc. induction xs as [| x r IH]; intro acc; simpl; [ring |].
  rewrite IH. ring.
Qed.






















End PearsonProofs.

Module ObjectProofs.
Import JsString Js Types JsObject.
Local Open Scope string_scope.

Lemma obj_own_define (o : js_obj) (k : string) (v : jsval) (k' : string) :
  obj_own (obj_define o k v) k' = if String.eqb k' k then Some v else obj_own o k'.
Proof.
  induction o as [| [k0 v0] r IH]; simpl; [reflexivity |].
  destruct (String.eqb_spec k k0) as [-> | Hne]; simpl.
  - destruct (String.eqb k' k0); reflexivity.
  - rewrite IH. destruct (String.eqb_spec k' k0) as [-> | Hne'].
    + destruct (String.eqb_spec k0 k); [congruence | reflexivity].
    + reflexivity.
Qed.

Lemma obj_own_delete (o : js_obj) (k k' : string) :
  obj_own (obj_delete o k) k' = if String.eqb k' k then None else obj_own o k'.
Proof.
  unfold obj_delete. induction o as [| [k0 v0] r IH]; simpl.
  - now destruct (String.eqb k' k).
  - destruct (String.eqb_spec k0 k) as [-> | Hne]; simpl.
    + rewrite IH. now destruct (String.eqb k' k).
    + rewrite IH. destruct (String.eqb_spec k' k) as [E | Hne'].
      * subst k'. destruct (String.eqb_spec k k0); [congruence | reflexivity].
      * reflexivity.
Qed.

Lemma obj_own_none (o : js_obj) (k : string) :
  obj_own o k = None <-> ~ In k (map fst o).
Proof.
  induction o as [| [k0 v0] r IH]; simpl; [tauto |].
  destruct (String.eqb_spec k k0) as [-> | Hne]; [split; [discriminate | tauto] |].
  rewrite IH. split; [intros H [H' | H']; [congruence | contradiction] | tauto].
Qed.

Lemma obj_own_get (o : js_obj) (k : string) (v : jsval) :
  obj_own o k = Some v -> obj_get o k = v.
Proof. unfold obj_get. now intros ->. Qed.

Lemma in_obj_keys (o : js_obj) (k : string) :
  In k (obj_keys o) <-> exists v, obj_own o k = Some v.
Proof.
  split.
  - intro H. apply (Permutation_in _ (GroupProofs.obj_keys_perm o)) in H.
    destruct (obj_own o k) as [v |] eqn:E; [now exists v |].
    apply obj_own_none in E. contradiction.
  - intros (v & Hv). apply (Permutation_in _ (Permutation_sym (GroupProofs.obj_keys_perm o))).
    destruct (in_dec string_dec k (map fst o)) as [H | H]; [exact H |].
    apply obj_own_none in H. congruence.
Qed.

Lemma obj_own_fold_define (o acc : js_obj) (ks : list string) (k : string) :
  obj_own (fold_left (fun acc k => obj_define acc k (obj_get o k)) ks acc) k
  = if existsb (String.eqb k) ks then Some (obj_get o k) else obj_own acc k.
Proof.
  revert acc. induction ks as [| k0 ks IH]; intro acc; simpl; [reflexivity |].
  rewrite IH, obj_own_define.
  destruct (String.eqb_spec k k0) as [-> | Hne]; simpl;
    [now destruct (existsb (String.eqb k0) ks) |].
  reflexivity.
Qed.

Lemma obj_own_spread (o : js_obj) (k : string) : obj_own (obj_spread o) k = obj_own o k.
Proof.
  unfold obj_spread. rewrite obj_own_fold_define. simpl.
  destruct (existsb (String.eqb k) (obj_keys o)) eqn:E.
  - apply existsb_exists in E as (k' & Hk' & Heq). apply String.eqb_eq in Heq. subst k'.
    apply in_obj_keys in Hk' as (v & Hv). rewrite Hv. now rewrite (obj_own_get _ _ _ Hv).
  - destruct (obj_own o k) as [v |] eqn:Hv; [| reflexivity].
    assert (In k (obj_keys o)) by (apply in_obj_keys; now exists v).
    assert (existsb (String.eqb k) (obj_keys o) = true)
      by (apply existsb_exists; exists k; split; [assumption | apply String.eqb_refl]).
    congruence.
Qed.

Lemma obj_get_ext (o o' : js_obj) (k : string) :
  obj_own o k = obj_own o' k -> obj_get o k = obj_get o' k.
Proof. unfold obj_get. now intros ->. Qed.

End ObjectProofs.
Module UploadProofs.
Import JsString JsNumber Js Types DataService Notions FileUpload.
Local Open Scope string_scope.

Lemma prefixb_spec (p l : list ascii) : prefixb p l = true <-> exists t, l = (p ++ t)%list.
Proof.
  revert l. induction p as [| a p IH]; intro l; simpl.
  - split; [intros _; now exists l | reflexivity].
  - destruct l as [| b l].
    + split; [discriminate | intros (t & H); discriminate].
    + rewrite Bool.andb_true_iff, IH. split.
      * intros (Hab & t & ->). apply Ascii.eqb_eq in Hab. subst b. now exists t.
      * intros (t & Ht). injection Ht as -> ->. split; [apply Ascii.eqb_refl | now exists t].
Qed.

Lemma ends_with_spec (s suffix : string) :
  ends_with s suffix = true <-> exists p, s = p ++ suffix.
Proof.
  unfold ends_with. rewrite prefixb_spec. split.
  - intros (t & Ht). exists (string_of_list_ascii (rev t)).
    rewrite <- (string_of_list_ascii_of_string s), <- (string_of_list_ascii_of_string suffix).
    assert (E : list_ascii_of_string s = (rev t ++ list_ascii_of_string suffix)%list).
    { rewrite <- (rev_involutive (list_ascii_of_string s)), Ht, rev_app_distr, rev_involutive.
      reflexivity. }
    rewrite E. clear. induction (rev t) as [| c l IH]; simpl;
      [now rewrite string_of_list_ascii_of_string | now rewrite IH].
  - intros (p & ->). exists (rev (list_ascii_of_string p)).
    rewrite CellProofs.list_ascii_of_string_append, rev_app_distr. reflexivity.
Qed.

Lemma nonblank_lines_nil (text : string) :
  nonblank_lines text = [] <-> Forall (fun l => trim l = EmptyString) (split_lines text).
Proof.
  unfold nonblank_lines. rewrite Forall_forall. induction (split_lines text) as [| l ls IH]; simpl.
  - split; [intros _ x [] | reflexivity].
  - destruct (String.eqb_spec (trim l) EmptyString) as [E | E]; simpl.
    + rewrite IH. split.
      * intros H x [<- | Hx]; [exact E | now apply H].
      * intros H x Hx. apply H. now right.
    + split; [discriminate | intro H]. exfalso. apply E, H. now left.
Qed.

End UploadProofs.
Module UploadExtras.
Import JsString JsNumber Js Types DataService Notions FileUpload UploadProofs.
Local Open Scope string_scope.

(** [processFile] turns a file away before reading it exactly when its
    MIME type is not [text/csv] and its name does not end in [.csv]
    (a case-sensitive test: [DATA.CSV] of type [""] is refused). *)
Theorem processFile_rejects (uuid fileType fileName : string) (contents : option string) :
  processFile uuid fileType fileName contents = UploadError "Please upload a valid CSV file."
  <-> fileType <> "text/csv" /\ ~ (exists p, fileName = p ++ ".csv").
Proof.
  rewrite <- ends_with_spec. unfold processFile.
  destruct (String.eqb_spec fileType "text/csv") as [Ht | Ht]; simpl.
  - split; [| tauto]. destruct contents as [text |]; [| discriminate].
    destruct (parseCSV uuid text fileName); discriminate.
  - destruct (ends_with fileName ".csv"); simpl.
    + split; [| tauto]. destruct contents as [text |]; [| discriminate].
      destruct (parseCSV uuid text fileName); discriminate.
    + split; [intros _; split; [exact Ht | discriminate] | reflexivity].
Qed.

(** A file that passes the type test and is read: parsing fails, with
    the message [Failed to parse CSV...], exactly when every line of it is
    blank; otherwise the dataset handed on is named after the file and
    holds the first 3000 accepted rows, with the count of all of them. *)
Theorem processFile_parse_outcome (uuid fileType fileName text : string)
  (Hok : fileType = "text/csv" \/ exists p, fileName = p ++ ".csv") :
  (processFile uuid fileType fileName (Some text)
     = UploadError "Failed to parse CSV. Please check the file format."
   <-> Forall (fun l => trim l = EmptyString) (split_lines text))
  /\ (forall ds, processFile uuid fileType fileName (Some text) = DataLoaded ds ->
        ds_name ds = fileName /\ ds_data ds = firstn row_limit (csv_accepted text)
        /\ ds_rowCount ds = length (csv_accepted text))
  /\ (Forall (fun l => trim l = EmptyString) (split_lines text)
      \/ exists ds, processFile uuid fileType fileName (Some text) = DataLoaded ds).
Proof.
  assert (Hg : negb (String.eqb fileType "text/csv") && negb (ends_with fileName ".csv") = false).
  { destruct Hok as [-> | Hp]; [reflexivity |].
    apply ends_with_spec in Hp. rewrite Hp. apply Bool.andb_false_r. }
  unfold processFile. rewrite Hg. rewrite <- nonblank_lines_nil.
  unfold parseCSV, csv_accepted. destruct (nonblank_lines text) as [| l0 ls].
  - split; [split; reflexivity |]. split; [intros ds H; discriminate | now left].
  - split; [split; discriminate |]. split.
    + intros ds H. injection H as <-. simpl. now repeat split.
    + right. eexists. reflexivity.
Qed.

Lemma processFile_parse_outcome_witness :
  ("text/csv" = "text/csv" \/ exists p, "sales.csv" = p ++ ".csv")
  /\ ((processFile "id" "text/csv" "sales.csv" (Some "a,b")
         = UploadError "Failed to parse CSV. Please check the file format."
       <-> Forall (fun l => trim l = EmptyString) (split_lines "a,b"))
      /\ (forall ds, processFile "id" "text/csv" "sales.csv" (Some "a,b") = DataLoaded ds ->
            ds_name ds = "sales.csv" /\ ds_data ds = firstn row_limit (csv_accepted "a,b")
            /\ ds_rowCount ds = length (csv_accepted "a,b"))
      /\ (Forall (fun l => trim l = EmptyString) (split_lines "a,b")
          \/ exists ds, processFile "id" "text/csv" "sales.csv" (Some "a,b") = DataLoaded ds)).
Proof.
  split; [left; reflexivity |].
  apply (processFile_parse_outcome "id" "text/csv" "sales.csv" "a,b"). left. reflexivity.
Defined.

End UploadExtras.

Module RowProofs.
Import JsString JsNumber Js Types DataService ObjectProofs.
Local Open Scope string_scope.

Definition assign_cell (row : js_obj) (hf : string * string) : js_obj :=
  obj_assign row (fst hf) (parse_cell (snd hf)).

Lemma obj_own_assign (row : js_obj) (h k : string) (v : jsval) :
  obj_own row "__proto__" = None -> k <> "__proto__" ->
  obj_own (obj_assign row h v) k = if String.eqb k h then Some v else obj_own row k.
Proof.
  intros Hp Hk. unfold obj_assign.
  destruct (String.eqb_spec h "__proto__") as [-> | Hh]; simpl.
  - rewrite Hp. simpl. destruct (String.eqb_spec k "__proto__"); [contradiction | reflexivity].
  - apply obj_own_define.
Qed.

Lemma assign_keeps_no_proto (row : js_obj) (hf : string * string) :
  obj_own row "__proto__" = None -> obj_own (assign_cell row hf) "__proto__" = None.
Proof.
  intro Hp. unfold assign_cell, obj_assign.
  destruct (String.eqb_spec (fst hf) "__proto__") as [-> | Hh]; simpl.
  - now rewrite Hp.
  - rewrite obj_own_define. destruct (String.eqb_spec "__proto__" (fst hf)); [congruence | exact Hp].
Qed.

Lemma fold_no_proto (l : list (string * string)) (acc : js_obj) :
  obj_own acc "__proto__" = None -> obj_own (fold_left assign_cell l acc) "__proto__" = None.
Proof.
  revert acc. induction l as [| hf l IH]; intros acc Hp; simpl; [exact Hp |].
  apply IH, assign_keeps_no_proto, Hp.
Qed.

Lemma fold_other_keys (l : list (string * string)) (acc : js_obj) (k : string) :
  obj_own acc "__proto__" = None -> k <> "__proto__" -> ~ In k (map fst l) ->
  obj_own (fold_left assign_cell l acc) k = obj_own acc k.
Proof.
  revert acc. induction l as [| [h f] l IH]; intros acc Hp Hk Hin; simpl; [reflexivity |].
  rewrite IH.
  - unfold assign_cell. simpl. rewrite obj_own_assign by assumption.
    destruct (String.eqb_spec k h) as [-> | _]; [exfalso; apply Hin; now left | reflexivity].
  - now apply assign_keeps_no_proto.
  - exact Hk.
  - intro H. apply Hin. now right.
Qed.

Lemma build_row_fold (headers fields : list string) :
  build_row headers fields = fold_left assign_cell (combine headers fields) [].
Proof. reflexivity. Qed.

(** The row object [parseCSV] builds from the headers and the fields of
    one line: it never has an own [__proto__] property (that header is
    dropped); a key that heads no field is absent; and a header [k]
    gets the parsed value of its last column, so when two columns share a
    header the later one wins. *)
Theorem build_row_fields (headers fields : list string) :
  obj_own (build_row headers fields) "__proto__" = None
  /\ (forall k, ~ In k (map fst (combine headers fields)) ->
        obj_own (build_row headers fields) k = None)
  /\ (forall pre post k f, combine headers fields = (pre ++ (k, f) :: post)%list ->
        ~ In k (map fst post) -> k <> "__proto__" ->
        obj_own (build_row headers fields) k = Some (parse_cell f)).
Proof.
  rewrite build_row_fold. split; [| split].
  - now apply fold_no_proto.
  - intros k Hk. destruct (String.eqb_spec k "__proto__") as [-> | Hne].
    + now apply fold_no_proto.
    + now rewrite fold_other_keys.
  - intros pre post k f E Hpost Hk. rewrite E, fold_left_app. simpl.
    rewrite fold_other_keys; [| | exact Hk | exact Hpost].
    + unfold assign_cell. simpl. rewrite obj_own_assign; [| now apply fold_no_proto | exact Hk].
      now rewrite String.eqb_refl.
    + apply assign_keeps_no_proto. now apply fold_no_proto.
Qed.

End RowProofs.
Module IntentExtras.
Import JsString JsNumber Js Types DataService IntentPost.
Local Open Scope string_scope.

(** The ordering operators of the filter switch, read numerically:
    [x op q]. *)
Definition num_order (op : string) (x q : Q) : bool :=
  if String.eqb op ">" then Qlt_bool q x
  else if String.eqb op "<" then Qlt_bool x q
  else if String.eqb op ">=" then negb (Qlt_bool x q)
  else negb (Qlt_bool q x).

Lemma js_less_nonstring_l (a b : jsval) :
  prim_is_string a = false ->
  js_less a b = match js_ToNumber a, js_ToNumber b with
                | Some x, Some y => Some (Qlt_bool x y) | _, _ => None end.
Proof. intro H. unfold js_less. now rewrite H. Qed.

Lemma js_less_nonstring_r (a b : jsval) :
  prim_is_string b = false ->
  js_less a b = match js_ToNumber a, js_ToNumber b with
                | Some x, Some y => Some (Qlt_bool x y) | _, _ => None end.
Proof. intro H. unfold js_less. rewrite H, Bool.andb_false_r. reflexivity. Qed.

(** The numeric coercion of [interpretUserQuery] does not change what an
    ordering filter ([>], [<], [>=], [<=]) does on a row whose cell is not
    a string; on a string cell it turns the comparison into a numeric one
    (before it, two strings were compared code unit by code unit): the
    row passes when the cell reads as a number that is in order with the
    filter value, and fails when the cell is not numeric. *)
Theorem coerce_filter_ordering (f : QueryFilter) (q : Q)
  (Hop : In (qf_operator f) [">"; "<"; ">="; "<="])
  (Hq : js_ToNumber (qf_value f) = Some q) :
  (forall row, prim_is_string (obj_get row (qf_column f)) = false ->
     filter_pass row (coerce_filter f) = filter_pass row f)
  /\ (forall row c, obj_get row (qf_column f) = VStr c ->
     filter_pass row (coerce_filter f)
     = match js_Number c with Some x => num_order (qf_operator f) x q | None => false end).
Proof.
  destruct f as [col op v]. simpl in Hop, Hq |- *.
  unfold coerce_filter. simpl. rewrite Hq.
  assert (Hc : String.eqb op "contains" = false)
    by (repeat (destruct Hop as [<- | Hop]; [reflexivity |]); destruct Hop).
  rewrite Hc. simpl. split.
  - intros row Hrow. unfold filter_pass. simpl.
    unfold js_gt, js_lt, js_ge, js_le.
    rewrite !(js_less_nonstring_l (obj_get row col)) by exact Hrow.
    rewrite !(js_less_nonstring_r _ (obj_get row col)) by exact Hrow.
    simpl. rewrite Hq.
    repeat (destruct Hop as [<- | Hop]; [reflexivity |]). destruct Hop.
  - intros row c Hrow. unfold filter_pass. simpl. rewrite Hrow.
    unfold js_gt, js_lt, js_ge, js_le, js_less. simpl.
    unfold num_order.
    repeat (destruct Hop as [<- | Hop];
            [simpl; destruct (js_Number c) as [x |]; [destruct (Qlt_bool _ _) |]; reflexivity |]).
    destruct Hop.
Qed.

Lemma coerce_filter_ordering_witness :
  In (qf_operator {| qf_column := "price"; qf_operator := ">"; qf_value := VStr "10" |})
     [">"; "<"; ">="; "<="]
  /\ js_ToNumber (qf_value {| qf_column := "price"; qf_operator := ">"; qf_value := VStr "10" |})
     = Some 10
  /\ ((forall row, prim_is_string (obj_get row "price") = false ->
        filter_pass row (coerce_filter {| qf_column := "price"; qf_operator := ">"; qf_value := VStr "10" |})
        = filter_pass row {| qf_column := "price"; qf_operator := ">"; qf_value := VStr "10" |})
      /\ (forall row c, obj_get row "price" = VStr c ->
        filter_pass row (coerce_filter {| qf_column := "price"; qf_operator := ">"; qf_value := VStr "10" |})
        = match js_Number c with Some x => num_order ">" x 10 | None => false end)).
Proof.
  assert (H1 : In (qf_operator {| qf_column := "price"; qf_operator := ">"; qf_value := VStr "10" |})
                  [">"; "<"; ">="; "<="]) by (simpl; left; reflexivity).
  assert (H2 : js_ToNumber (qf_value {| qf_column := "price"; qf_operator := ">"; qf_value := VStr "10" |})
               = Some 10) by (vm_compute; reflexivity).
  split; [exact H1 | split; [exact H2 |]].
  exact (coerce_filter_ordering {| qf_column := "price"; qf_operator := ">"; qf_value := VStr "10" |}
           10 H1 H2).
Defined.

(** A blank filter value ([""] or spaces) reads as the number 0, so after
    [interpretUserQuery]'s coercion an [==] filter with a blank value keeps
    exactly the rows whose cell prints as [0] (and drops the rows whose
    cell is empty), while a [contains] filter is left as it was. *)
Theorem coerce_blank_filter_value (f : QueryFilter) (s : string)
  (Hv : qf_value f = VStr s) (Hs : trim s = EmptyString) :
  (qf_operator f = "==" -> forall row,
     filter_pass row (coerce_filter f)
     = String.eqb (toLowerCase (js_String (obj_get row (qf_column f)))) "0")
  /\ (qf_operator f = "contains" -> coerce_filter f = f).
Proof.
  assert (H0 : js_ToNumber (qf_value f) = Some 0).
  { rewrite Hv. simpl. unfold js_Number. now rewrite Hs. }
  unfold coerce_filter. rewrite H0. split.
  - intros Hop row. rewrite Hop. simpl. unfold filter_pass. simpl. reflexivity.
  - intros Hop. rewrite Hop. reflexivity.
Qed.

Lemma coerce_blank_filter_value_witness :
  qf_value {| qf_column := "region"; qf_operator := "=="; qf_value := VStr " " |} = VStr " "
  /\ trim " " = EmptyString
  /\ ((qf_operator {| qf_column := "region"; qf_operator := "=="; qf_value := VStr " " |} = "==" ->
       forall row,
       filter_pass row (coerce_filter {| qf_column := "region"; qf_operator := "=="; qf_value := VStr " " |})
       = String.eqb (toLowerCase (js_String (obj_get row "region"))) "0")
      /\ (qf_operator {| qf_column := "region"; qf_operator := "=="; qf_value := VStr " " |} = "contains" ->
          coerce_filter {| qf_column := "region"; qf_operator := "=="; qf_value := VStr " " |}
          = {| qf_column := "region"; qf_operator := "=="; qf_value := VStr " " |})).
Proof.
  assert (H1 : trim " " = EmptyString) by reflexivity.
  split; [reflexivity | split; [exact H1 |]].
  exact (coerce_blank_filter_value {| qf_column := "region"; qf_operator := "=="; qf_value := VStr " " |}
           " " eq_refl H1).
Defined.

End IntentExtras.
Module DashboardProofs.
Import JsString JsNumber Js Types JsObject Dashboard ObjectProofs.
Local Open Scope string_scope.

Lemma filter_filter_andb {A} (f g : A -> bool) (l : list A) :
  filter g (filter f l) = filter (fun x => f x && g x) l.
Proof.
  induction l as [| x r IH]; simpl; [reflexivity |].
  destruct (f x); simpl; [destruct (g x); simpl; now rewrite IH | exact IH].
Qed.

Lemma fold_filters (P : string -> js_obj -> bool) (ks : list string) (data : list js_obj) :
  fold_left (fun d k => filter (P k) d) ks data
  = filter (fun row => forallb (fun k => P k row) ks) data.
Proof.
  revert data. induction ks as [| k ks IH]; intro data; simpl.
  - induction data as [| x r IHd]; simpl; [reflexivity | now rewrite <- IHd].
  - rewrite IH, filter_filter_andb. reflexivity.
Qed.

(** The row test of [filteredData]. *)
Definition keeps (searchTerm : string) (F : FilterState) (row : js_obj) : bool :=
  forallb (fun k => js_loose_eq (obj_get row k) (obj_get F k)) (obj_keys F)
  && (String.eqb (trim searchTerm) EmptyString || search_match (toLowerCase searchTerm) row).

Lemma filteredData_filter (data : list js_obj) (s : string) (F : FilterState) :
  filteredData data s F = filter (keeps s F) data.
Proof.
  unfold filteredData, keeps.
  rewrite (fold_filters (fun k row => js_loose_eq (obj_get row k) (obj_get F k))).
  destruct (String.eqb (trim s) EmptyString).
  - apply filter_ext. intro row. now rewrite Bool.andb_true_r.
  - rewrite filter_filter_andb. reflexivity.
Qed.

Lemma forallb_filters (row : js_obj) (F : FilterState) :
  forallb (fun k => js_loose_eq (obj_get row k) (obj_get F k)) (obj_keys F) = true
  <-> (forall k v, obj_own F k = Some v -> js_loose_eq (obj_get row k) v = true).
Proof.
  rewrite forallb_forall. split.
  - intros H k v Hv. rewrite <- (obj_own_get _ _ _ Hv). apply H, in_obj_keys. now exists v.
  - intros H k Hk. apply in_obj_keys in Hk as (v & Hv). rewrite (obj_own_get _ _ _ Hv).
    now apply H.
Qed.

Lemma keeps_ext (s : string) (F G : FilterState) (row : js_obj) :
  (forall k, obj_own F k = obj_own G k) -> keeps s F row = keeps s G row.
Proof.
  intro HFG. unfold keeps. f_equal.
  apply Bool.eq_iff_eq_true. rewrite !forallb_filters.
  split; intros H k v Hv; apply H; [rewrite HFG | rewrite <- HFG]; exact Hv.
Qed.

Lemma filteredData_ext (data : list js_obj) (s : string) (F G : FilterState) :
  (forall k, obj_own F k = obj_own G k) -> filteredData data s F = filteredData data s G.
Proof.
  intro HFG. rewrite !filteredData_filter. apply filter_ext. intro row.
  now apply keeps_ext.
Qed.

Lemma filteredData_In (data : list js_obj) (s : string) (F : FilterState) (row : js_obj) :
  In row (filteredData data s F)
  <-> In row data
      /\ (forall k v, obj_own F k = Some v -> js_loose_eq (obj_get row k) v = true)
      /\ (trim s = EmptyString \/ search_match (toLowerCase s) row = true).
Proof.
  rewrite filteredData_filter, filter_In. unfold keeps.
  rewrite Bool.andb_true_iff, forallb_filters, Bool.orb_true_iff, String.eqb_eq.
  tauto.
Qed.

Lemma js_loose_eq_refl (v : jsval) : v <> VNaN -> js_loose_eq v v = true.
Proof.
  intro H. destruct v as [q | | s | | k]; simpl.
  - now apply Qeq_bool_iff.
  - now contradiction H.
  - apply String.eqb_refl.
  - reflexivity.
  - apply String.eqb_refl.
Qed.

Lemma own_drill (F : FilterState) (key : string) (value : jsval) (k : string) :
  obj_own (handleDrillDown F key value) k = if String.eqb k key then Some value else obj_own F k.
Proof. unfold handleDrillDown. now rewrite obj_own_define, obj_own_spread. Qed.

Lemma own_remove (F : FilterState) (key k : string) :
  obj_own (removeFilter F key) k = if String.eqb k key then None else obj_own F k.
Proof. unfold removeFilter. now rewrite obj_own_delete, obj_own_spread. Qed.

End DashboardProofs.

Module DashboardExtras.
Import JsString JsNumber Js Types JsObject Dashboard ObjectProofs DashboardProofs.
Local Open Scope string_scope.

(** [filteredData] keeps the dataset's rows in their order (it is a
    filter of them), and keeps a row exactly when its cell under every
    drill-down key is loosely equal ([==]) to that filter's value and,
    when the search box holds more than white space, one of its values
    contains the lower-cased search text (untrimmed) in its lower-cased
    string form. *)
Theorem filteredData_spec (data : list js_obj) (searchTerm : string) (F : FilterState) :
  (exists p, filteredData data searchTerm F = filter p data)
  /\ (forall row, In row (filteredData data searchTerm F)
      <-> In row data
          /\ (forall k v, obj_own F k = Some v -> js_loose_eq (obj_get row k) v = true)
          /\ (trim searchTerm = EmptyString
              \/ existsb (fun val => includes (toLowerCase (js_String val)) (toLowerCase searchTerm))
                         (obj_values row) = true)).
Proof.
  split.
  - exists (keeps searchTerm F). apply filteredData_filter.
  - intro row. apply filteredData_In.
Qed.

(** Drilling down on a key and then removing that key's filter gives the
    rows the dashboard showed without any filter on that key; when the key
    had no filter before, the rows are those shown before the drill-down.
    The filter record then has no [key] and the other filters unchanged. *)
Theorem drill_then_remove (data : list js_obj) (searchTerm : string) (F : FilterState)
  (key : string) (value : jsval) :
  (forall k, obj_own (removeFilter (handleDrillDown F key value) key) k
             = if String.eqb k key then None else obj_own F k)
  /\ filteredData data searchTerm (removeFilter (handleDrillDown F key value) key)
     = filteredData data searchTerm (removeFilter F key)
  /\ (obj_own F key = None ->
      filteredData data searchTerm (removeFilter (handleDrillDown F key value) key)
      = filteredData data searchTerm F).
Proof.
  assert (Hown : forall k, obj_own (removeFilter (handleDrillDown F key value) key) k
                           = if String.eqb k key then None else obj_own F k).
  { intro k. rewrite own_remove, own_drill. now destruct (String.eqb k key). }
  split; [exact Hown | split].
  - apply filteredData_ext. intro k. rewrite Hown, own_remove. reflexivity.
  - intro Hnone. apply filteredData_ext. intro k. rewrite Hown.
    destruct (String.eqb_spec k key) as [-> | _]; [now rewrite Hnone | reflexivity].
Qed.

End DashboardExtras.
Module ChartExtras.
Import JsString JsNumber Js Types JsObject App ChartRenderer Dashboard ObjectProofs DashboardProofs.
Local Open Scope string_scope.

Lemma chart_data_prefix (data : list js_obj) :
  exists rest, data = (chart_data data ++ rest)%list.
Proof.
  unfold chart_data. destruct (2000 <? length data)%nat.
  - exists (skipn 500 data). symmetry. apply firstn_skipn.
  - exists []. now rewrite app_nil_r.
Qed.

(** Clicking a point of a chart on the dashboard adds the drill-down
    filter [xKey = value] of that point; a point the dashboard showed stays
    among the rows shown afterwards (its value is loosely equal to itself),
    unless the value is NaN. *)
Theorem drill_down_keeps_point (data : list js_obj) (searchTerm : string) (F : FilterState)
  (config : ChartConfig) (p : js_obj) (key : string) (value : jsval)
  (Hp : In p (filteredData data searchTerm F))
  (Hclick : handleClick config p = Some (key, value))
  (Hnan : value <> VNaN) :
  In p (filteredData data searchTerm (handleDrillDown F key value)).
Proof.
  unfold handleClick in Hclick.
  assert (Hv : key = xKey config /\ value = obj_get p (xKey config)).
  { destruct (obj_get p (xKey config)); try discriminate; injection Hclick as <- <-;
    split; reflexivity. }
  destruct Hv as [-> ->].
  apply filteredData_In in Hp as (Hin & Hf & Hs).
  apply filteredData_In. split; [exact Hin | split; [| exact Hs]].
  intros k v Hkv. rewrite own_drill in Hkv.
  destruct (String.eqb_spec k (xKey config)) as [-> | _].
  - injection Hkv as <-. now apply js_loose_eq_refl.
  - now apply Hf.
Qed.

Definition sales_rows : list js_obj :=
  [[("region", VStr "North"); ("sales", VNum 5)]; [("region", VStr "South"); ("sales", VNum 7)]].

Definition region_bar : ChartConfig :=
  {| cc_id := "c1"; cc_type := BAR; cc_title := "Sales"; cc_description := "";
     xKey := "region"; yKey := "sales"; categoryKey := None |}.

Lemma drill_down_keeps_point_witness :
  In [("region", VStr "South"); ("sales", VNum 7)] (filteredData sales_rows "" [])
  /\ handleClick region_bar [("region", VStr "South"); ("sales", VNum 7)]
     = Some ("region", VStr "South")
  /\ VStr "South" <> VNaN
  /\ In [("region", VStr "South"); ("sales", VNum 7)]
        (filteredData sales_rows "" (handleDrillDown [] "region" (VStr "South"))).
Proof.
  assert (H1 : In [("region", VStr "South"); ("sales", VNum 7)] (filteredData sales_rows "" []))
    by (vm_compute; right; left; reflexivity).
  assert (H2 : handleClick region_bar [("region", VStr "South"); ("sales", VNum 7)]
               = Some ("region", VStr "South")) by reflexivity.
  assert (H3 : VStr "South" <> VNaN) by discriminate.
  split; [exact H1 | split; [exact H2 | split; [exact H3 |]]].
  exact (drill_down_keeps_point sales_rows "" [] region_bar _ "region" (VStr "South") H1 H2 H3).
Defined.

(** Every chart that [sanitizeAnalysisResult] keeps is drawn when the
    dashboard opens (no search, no drill-down filter): [ChartRenderer]
    never shows "Unable to render chart" for it. *)
Theorem sanitized_charts_render (result : AnalysisResult) (dataset : Dataset) (chart : ChartConfig)
  (Hdata : ds_data dataset <> [])
  (Hc : In chart (recommendedCharts (sanitizeAnalysisResult result dataset))) :
  exists points, ChartRenderer chart (filteredData (ds_data dataset) "" []) = ChartPlot points.
Proof.
  assert (Hf : filteredData (ds_data dataset) "" [] = ds_data dataset).
  { unfold filteredData. simpl. reflexivity. }
  rewrite Hf. unfold sanitizeAnalysisResult in Hc.
  destruct (ds_data dataset) as [| row0 rest] eqn:Ed; [contradiction |].
  simpl in Hc. apply filter_In in Hc as (_ & Hv). apply Bool.andb_true_iff in Hv as (Hx & Hy).
  unfold is_valid_key in Hx, Hy.
  assert (Hin : forall k, existsb (String.eqb k) (obj_keys row0) = true -> js_in k row0 = true).
  { intros k Hk. apply existsb_exists in Hk as (k' & Hk' & E). apply String.eqb_eq in E. subst k'.
    apply in_obj_keys in Hk' as (v & Hv). unfold js_in. now rewrite Hv. }
  assert (Hcd : exists r, chart_data (row0 :: rest) = row0 :: r).
  { unfold chart_data. destruct (2000 <? length (row0 :: rest))%nat.
    - now exists (firstn 499 rest).
    - now exists rest. }
  destruct Hcd as (r & Hcd). unfold ChartRenderer. rewrite Hcd. simpl.
  rewrite (Hin _ Hx), (Hin _ Hy). simpl.
  destruct (cc_type chart); eexists; reflexivity.
Qed.

Definition sales_dataset : Dataset :=
  {| ds_id := "d1"; ds_name := "sales.csv"; ds_data := sales_rows; ds_rowCount := 2;
     ds_analysis := None |}.

Definition sales_result : AnalysisResult :=
  {| summary := ""; columns := [];
     recommendedCharts := [{| cc_id := "c1"; cc_type := PIE; cc_title := "Sales";
                              cc_description := ""; xKey := "Region"; yKey := "sales";
                              categoryKey := None |}];
     insights := [] |}.

Lemma sanitized_charts_render_witness :
  ds_data sales_dataset <> []
  /\ In {| cc_id := "c1"; cc_type := PIE; cc_title := "Sales"; cc_description := "";
           xKey := "region"; yKey := "sales"; categoryKey := None |}
        (recommendedCharts (sanitizeAnalysisResult sales_result sales_dataset))
  /\ exists points,
       ChartRenderer {| cc_id := "c1"; cc_type := PIE; cc_title := "Sales"; cc_description := "";
                        xKey := "region"; yKey := "sales"; categoryKey := None |}
                     (filteredData (ds_data sales_dataset) "" []) = ChartPlot points.
Proof.
  assert (H1 : ds_data sales_dataset <> []) by discriminate.
  assert (H2 : In {| cc_id := "c1"; cc_type := PIE; cc_title := "Sales"; cc_description := "";
                     xKey := "region"; yKey := "sales"; categoryKey := None |}
                  (recommendedCharts (sanitizeAnalysisResult sales_result sales_dataset)))
    by (vm_compute; left; reflexivity).
  split; [exact H1 | split; [exact H2 |]].
  exact (sanitized_charts_render sales_result sales_dataset _ H1 H2).
Defined.

(** What a chart draws is a prefix of its rows: at most 2000 rows ever,
    at most 500 when the rows number more than 2000 (so 2001 rows draw
    fewer points than 2000), and at most 10 slices in a pie chart. *)
Theorem chart_points_bounds (config : ChartConfig) (data points : list js_obj)
  (Hplot : ChartRenderer config data = ChartPlot points) :
  (exists rest, data = (points ++ rest)%list)
  /\ points <> []
  /\ (length points <= 2000)%nat
  /\ ((2000 < length data)%nat -> (length points <= 500)%nat)
  /\ (cc_type config = PIE -> (length points <= 10)%nat).
Proof.
  unfold ChartRenderer in Hplot.
  destruct (negb (isValidKey config (chart_data data)) || (length (chart_data data) =? 0)%nat)
    eqn:Ev; [discriminate |].
  apply Bool.orb_false_iff in Ev as (_ & Hlen).
  destruct (chart_data_prefix data) as (rest & Hd).
  assert (Hcd : (length (chart_data data) <= 2000)%nat
                /\ ((2000 < length data)%nat -> (length (chart_data data) <= 500)%nat)).
  { unfold chart_data. destruct (Nat.ltb_spec 2000 (length data)).
    - rewrite length_firstn. lia.
    - split; lia. }
  assert (Hne : chart_data data <> []) by (intro E; rewrite E in Hlen; discriminate).
  assert (Einj : forall a b, ChartPlot a = ChartPlot b -> a = b) by congruence.
  destruct (cc_type config) eqn:Et; apply Einj in Hplot; subst points;
    try (split; [now exists rest | split; [exact Hne | split; [apply Hcd | split;
           [apply Hcd | discriminate]]]]).
  split; [| split; [| split; [| split]]].
  - exists (skipn 10 (chart_data data) ++ rest)%list.
    rewrite app_assoc, firstn_skipn. exact Hd.
  - destruct (chart_data data); [contradiction | discriminate].
  - rewrite length_firstn. lia.
  - intro H. rewrite length_firstn. lia.
  - intros _. rewrite length_firstn. lia.
Qed.

Lemma chart_points_bounds_witness :
  ChartRenderer region_bar sales_rows = ChartPlot sales_rows
  /\ (exists rest, sales_rows = (sales_rows ++ rest)%list)
  /\ sales_rows <> []
  /\ (length sales_rows <= 2000)%nat
  /\ ((2000 < length sales_rows)%nat -> (length sales_rows <= 500)%nat)
  /\ (cc_type region_bar = PIE -> (length sales_rows <= 10)%nat).
Proof.
  assert (H : ChartRenderer region_bar sales_rows = ChartPlot sales_rows) by reflexivity.
  split; [exact H |].
  exact (chart_points_bounds region_bar sales_rows sales_rows H).
Defined.

End ChartExtras.
Module StudioProofs.
Import JsString JsNumber Js Types JsObject DataService DataStudio ObjectProofs.
Local Open Scope string_scope.

Lemma firstn_min_length {A} (n : nat) (l : list A) : firstn (Nat.min n (length l)) l = firstn n l.
Proof.
  destruct (Nat.le_ge_cases n (length l)) as [H | H].
  - now rewrite Nat.min_l.
  - rewrite Nat.min_r by exact H. rewrite firstn_all, firstn_all2 by exact H. reflexivity.
Qed.

Lemma firstn_plus {A} (n k : nat) (l : list A) :
  firstn (n + k) l = (firstn n l ++ firstn k (skipn n l))%list.
Proof.
  revert l. induction n as [| n IH]; intro l; simpl; [reflexivity |].
  destruct l as [| x l]; [now rewrite firstn_nil | simpl; now rewrite IH].
Qed.

Lemma slice_page {A} (l : list A) (b : Z) :
  (0 <= b)%Z -> js_slice l b (b + 50) = firstn 50 (skipn (Z.to_nat b) l).
Proof.
  intro Hb. unfold js_slice.
  destruct (Z.ltb_spec b 0); [lia |]. destruct (Z.ltb_spec (b + 50) 0); [lia |].
  destruct (Z.le_gt_cases b (Z.of_nat (length l))) as [Hle | Hgt].
  - rewrite (Z.min_l b) by exact Hle.
    replace (Z.to_nat (Z.min (b + 50) (Z.of_nat (length l)) - b))
      with (Nat.min 50 (length (skipn (Z.to_nat b) l))) by (rewrite length_skipn; lia).
    apply firstn_min_length.
  - rewrite (Z.min_r b), (Z.min_r (b + 50)) by lia. rewrite Z.sub_diag. simpl.
    rewrite skipn_all2 by lia. reflexivity.
Qed.

Lemma pages_concat {A} (l : list A) (m : nat) :
  concat (map (fun i => firstn 50 (skipn (50 * i) l)) (seq 0 m)) = firstn (50 * m) l.
Proof.
  induction m as [| m IH]; [reflexivity |].
  rewrite seq_S, map_app, concat_app, IH. cbn [map concat]. rewrite app_nil_r.
  replace (50 * S m)%nat with (50 * m + 50)%nat by lia. rewrite firstn_plus.
  reflexivity.
Qed.

Lemma totalPages_cover (len : nat) : (Z.of_nat len <= 50 * totalPages len)%Z.
Proof.
  unfold totalPages, rowsPerPage.
  pose proof (Z.div_mod (Z.of_nat len + 50 - 1) 50) as H.
  pose proof (Z.mod_pos_bound (Z.of_nat len + 50 - 1) 50) as Hb. lia.
Qed.

Lemma totalPages_pos (len : nat) : (0 < len)%nat -> (1 <= totalPages len)%Z.
Proof.
  intro H. unfold totalPages, rowsPerPage.
  apply Z.div_le_lower_bound; lia.
Qed.

Lemma totalPages_nonneg (len : nat) : (0 <= totalPages len)%Z.
Proof. unfold totalPages, rowsPerPage. apply Z.div_pos; lia. Qed.

Lemma totalPages_zero : totalPages 0 = 0%Z.
Proof. reflexivity. Qed.

Lemma page_click_range (len : nat) (page : Z) (b : PageButton) :
  (0 < len)%nat -> (1 <= page <= totalPages len)%Z ->
  (1 <= page_click len page b <= totalPages len)%Z.
Proof.
  intros Hl Hp. pose proof (totalPages_pos len Hl).
  destruct b; simpl.
  - destruct (Z.eqb_spec page 1); lia.
  - destruct (Z.eqb_spec page (totalPages len)); lia.
Qed.

Lemma page_click_empty (page : Z) (b : PageButton) :
  (page = 0 \/ page = 1)%Z -> (page_click 0 page b = 0 \/ page_click 0 page b = 1)%Z.
Proof.
  intro Hp. rewrite <- totalPages_zero in Hp |- *.
  destruct b; simpl; rewrite totalPages_zero in *;
    destruct Hp as [-> | ->]; simpl; auto.
Qed.

Lemma clicks_range (len : nat) (clicks : list PageButton) (p : Z) :
  (0 < len)%nat -> (1 <= p <= totalPages len)%Z ->
  (1 <= fold_left (page_click len) clicks p <= totalPages len)%Z.
Proof.
  intro Hl. revert p. induction clicks as [| b bs IH]; intros p Hp; simpl; [exact Hp |].
  apply IH, page_click_range; assumption.
Qed.

Lemma clicks_empty (clicks : list PageButton) (p : Z) :
  (p = 0 \/ p = 1)%Z -> (fold_left (page_click 0) clicks p = 0 \/ fold_left (page_click 0) clicks p = 1)%Z.
Proof.
  revert p. induction clicks as [| b bs IH]; intros p Hp; simpl; [exact Hp |].
  apply IH, page_click_empty, Hp.
Qed.

Lemma edit_value_string_cell (field s : string) :
  parse_cell field = VStr s -> edit_value s = VStr s.
Proof.
  unfold parse_cell. destruct (js_Number (strip_quotes (trim field))) as [q |] eqn:E.
  - destruct (String.eqb_spec (strip_quotes (trim field)) EmptyString) as [Ee | _];
      [| discriminate].
    intro H. injection H as <-. rewrite Ee. reflexivity.
  - intro H. injection H as <-. unfold edit_value. now rewrite E.
Qed.

Lemma cell_edit_in_range (rows : list js_obj) (page rowIndex : Z) (key value : string) :
  (1 <= page)%Z -> (0 <= rowIndex)%Z ->
  ((page - 1) * rowsPerPage + rowIndex < Z.of_nat (length rows))%Z ->
  (Z.of_nat (length rows) <= 4294967295)%Z ->
  let i := Z.to_nat ((page - 1) * rowsPerPage + rowIndex) in
  handleCellEdit (map Some rows) page rowIndex key value
  = map Some (firstn i rows ++ obj_define (obj_spread (nth i rows [])) key (edit_value value)
                              :: skipn (S i) rows)%list.
Proof.
  intros Hp Hr Hlt Hmax i. unfold handleCellEdit. fold i.
  unfold rowsPerPage in *.
  destruct (Z.ltb_spec ((page - 1) * 50 + rowIndex) 0); [lia |].
  destruct (Z.leb_spec 4294967295 ((page - 1) * 50 + rowIndex)); [lia |]. simpl.
  assert (Hi : (i < length rows)%nat) by (unfold i; lia).
  rewrite nth_error_map, (nth_error_nth' rows [] Hi). simpl.
  unfold array_set. rewrite length_map.
  destruct (Nat.ltb_spec i (length rows)); [| lia].
  rewrite map_app, firstn_map, skipn_map. reflexivity.
Qed.

End StudioProofs.

Module StudioExtras.
Import JsString JsNumber Js Types JsObject DataService DataStudio ObjectProofs StudioProofs.
Local Open Scope string_scope.

(** The studio's pages hold at most 50 rows each, and pages 1 to
    [totalPages] laid end to end give back the whole dataset, each row
    once and in order. *)
Theorem pages_partition_data {A : Type} (data : list A) :
  (forall page, (length (paginatedData data page) <= 50)%nat)
  /\ concat (map (fun p => paginatedData data (Z.of_nat p))
                 (seq 1 (Z.to_nat (totalPages (length data))))) = data.
Proof.
  split.
  - intro page. unfold paginatedData, js_slice, rowsPerPage.
    rewrite length_firstn.
    destruct (Z.ltb_spec ((page - 1) * 50) 0), (Z.ltb_spec (page * 50) 0); lia.
  - rewrite <- seq_shift, map_map.
    rewrite (map_ext_in _ (fun i => firstn 50 (skipn (50 * i) data))).
    + rewrite pages_concat. apply firstn_all2.
      pose proof (totalPages_cover (length data)).
      pose proof (totalPages_nonneg (length data)). lia.
    + intros i _. unfold paginatedData, rowsPerPage.
      replace ((Z.of_nat (S i) - 1) * 50)%Z with (Z.of_nat i * 50)%Z by lia.
      replace (Z.of_nat (S i) * 50)%Z with (Z.of_nat i * 50 + 50)%Z by lia.
      rewrite slice_page by lia. f_equal. f_equal. lia.
Qed.

(** Starting on page 1, the Previous and Next buttons keep the page
    between 1 and [totalPages] whenever the data has rows; with no rows,
    [totalPages] is 0 and the enabled Next button moves to page 0 ("Page 0
    of 0"), so the page is then 1 or 0. *)
Theorem page_navigation_bounds (len : nat) (clicks : list PageButton) :
  let page := fold_left (page_click len) clicks 1%Z in
  ((0 < len)%nat -> (1 <= page <= totalPages len)%Z)
  /\ (len = 0%nat -> (page = 0 \/ page = 1)%Z).
Proof.
  intro page. split.
  - intro Hl. apply clicks_range; [exact Hl |].
    pose proof (totalPages_pos len Hl). lia.
  - intros ->. apply clicks_empty. now right.
Qed.



(** Leaving a text cell that [parseCSV] produced without changing it
    (its blur hands [handleCellEdit] the cell's text) keeps the cell a
    string with the same text: the row is unchanged, also for an empty
    cell, which is not turned into 0. *)
Theorem cell_edit_unchanged_text (rows : list js_obj) (page rowIndex : Z) (key field s : string)
  (Hpage : (1 <= page)%Z) (Hrow : (0 <= rowIndex)%Z)
  (Hin : ((page - 1) * rowsPerPage + rowIndex < Z.of_nat (length rows))%Z)
  (Hmax : (Z.of_nat (length rows) <= 4294967295)%Z)
  (Hcell : obj_own (nth (Z.to_nat ((page - 1) * rowsPerPage + rowIndex)) rows []) key
           = Some (parse_cell field))
  (Hs : parse_cell field = VStr s) :
  let i := Z.to_nat ((page - 1) * rowsPerPage + rowIndex) in
  exists row',
    handleCellEdit (map Some rows) page rowIndex key s
    = map Some (firstn i rows ++ row' :: skipn (S i) rows)%list
    /\ (forall k, obj_own row' k = obj_own (nth i rows []) k).
Proof.
  intro i. eexists. split; [apply cell_edit_in_range; assumption |].
  intro k. rewrite obj_own_define, obj_own_spread.
  destruct (String.eqb_spec k key) as [-> | _]; [| reflexivity].
  fold i in Hcell. rewrite Hcell, Hs. f_equal. now apply edit_value_string_cell with field.
Qed.

Lemma cell_edit_unchanged_text_witness :
  exists s,
    parse_cell " n/a " = VStr s
    /\ exists row',
      handleCellEdit (map Some [[("a", parse_cell " n/a ")]]) 1 0 "a" s
      = map Some (firstn 0 [[("a", parse_cell " n/a ")]] ++ row'
                  :: skipn 1 [[("a", parse_cell " n/a ")]])%list
      /\ (forall k, obj_own row' k = obj_own (nth 0 [[("a", parse_cell " n/a ")]] []) k).
Proof.
  exists "n/a". assert (Hs : parse_cell " n/a " = VStr "n/a") by (vm_compute; reflexivity).
  split; [exact Hs |].
  exact (cell_edit_unchanged_text [[("a", parse_cell " n/a ")]] 1 0 "a" " n/a " "n/a"
           ltac:(lia) ltac:(lia) ltac:(vm_compute; reflexivity) ltac:(vm_compute; discriminate)
           ltac:(vm_compute; reflexivity) Hs).
Defined.

End StudioExtras.
Module ChatProofs.
Import JsString JsNumber Js Types JsObject DataService Notions ChartRenderer AIChat ObjectProofs.
Local Open Scope string_scope.

Lemma groups_push_throw (G : Groups) (key : string) (val : Q) (e : string) :
  groups_push G key val = Throw e -> is_proto_name key = true.
Proof.
  induction G as [| [k vs] r IH]; simpl.
  - now destruct (is_proto_name key).
  - destruct (String.eqb key k); [discriminate |].
    destruct (groups_push r key val); [discriminate | intro H; now apply IH].
Qed.

Lemma groups_push_proto (G : Groups) (key : string) (val : Q) :
  is_proto_name key = true -> (forall k, In k (map fst G) -> is_proto_name k = false) ->
  exists e, groups_push G key val = Throw e.
Proof.
  intros Hk. induction G as [| [k vs] r IH]; intro HG; simpl.
  - rewrite Hk. eexists. reflexivity.
  - destruct (String.eqb_spec key k) as [-> | _].
    + rewrite (HG k (or_introl eq_refl)) in Hk. discriminate.
    + destruct IH as (e & ->); [intros k' Hk'; apply HG; now right |]. now exists e.
Qed.

Lemma collect_groups_throws (g a : string) (rows : list js_obj) (G : Groups) :
  (forall k, In k (map fst G) -> is_proto_name k = false) ->
  (exists e, collect_groups g a rows G = Throw e)
  <-> exists row, In row rows /\ is_proto_name (group_key g row) = true.
Proof.
  revert G. induction rows as [| row rs IH]; intros G HG; cbn [collect_groups].
  - split; [intros (e & H); discriminate | intros (row & [] & _)].
  - destruct (is_proto_name (group_key g row)) eqn:Hk.
    + destruct (groups_push_proto G (group_key g row) (agg_value a row) Hk HG) as (e & E).
      unfold group_key, agg_value in E. rewrite E.
      split; [intros _; exists row; split; [now left | exact Hk] | intros _; now exists e].
    + destruct (GroupProofs.groups_push_ok G (group_key g row) (agg_value a row) Hk)
        as (G1 & E1 & _ & I1 & _).
      unfold group_key, agg_value in E1. rewrite E1. rewrite IH.
      * split; intros (r & Hr & Hp); exists r; (split; [| exact Hp]).
        -- now right.
        -- destruct Hr as [<- | Hr]; [congruence | exact Hr].
      * intros k Hk1. apply I1 in Hk1 as [Hk1 | ->]; [now apply HG | exact Hk].
Qed.

Lemma queryData_throws (data : list js_obj) (intent : QueryIntent) :
  (exists e, queryData data intent = Throw e)
  <-> exists g a t, present (qi_groupBy intent) = Some g
        /\ present (qi_aggregateColumn intent) = Some a
        /\ present (qi_aggregateType intent) = Some t
        /\ exists row, In row (filter_stage data (qi_filters intent))
                       /\ is_proto_name (group_key g row) = true.
Proof.
  unfold queryData; cbv zeta.
  destruct (present (qi_groupBy intent)) as [g |];
    [| split; [intros (e & H); discriminate | intros (g & a & t & H & _); discriminate]].
  destruct (present (qi_aggregateColumn intent)) as [a |];
    [| split; [intros (e & H); discriminate | intros (g' & a & t & _ & H & _); discriminate]].
  destruct (present (qi_aggregateType intent)) as [t |];
    [| split; [intros (e & H); discriminate | intros (g' & a' & t & _ & _ & H & _); discriminate]].
  pose proof (collect_groups_throws g a (filter_stage data (qi_filters intent)) []
    (fun k H => match H with end)) as Hc.
  unfold group_stage.
  destruct (collect_groups g a (filter_stage data (qi_filters intent)) []) as [G | e].
  - split; [intros (e & H); discriminate |].
    intros (g' & a' & t' & Hg & _ & _ & Hrow). injection Hg as <-.
    apply Hc in Hrow as (e & H). discriminate.
  - split.
    + intros _. exists g, a, t. split; [reflexivity | split; [reflexivity | split; [reflexivity |]]].
      apply Hc. now exists e.
    + intros _. now exists e.
Qed.

Lemma group_row_keys (g a k : string) (v : Q) :
  js_in g (group_row g a k v) = true /\ js_in a (group_row g a k v) = true.
Proof.
  unfold group_row, js_in. rewrite !obj_own_define. simpl.
  rewrite !String.eqb_refl. split; [destruct (String.eqb g a); reflexivity | reflexivity].
Qed.

Lemma group_stage_rows (rows : list js_obj) (g a t : string) (out : list js_obj) :
  group_stage rows g a t = Ok out -> forall r, In r out -> exists k v, r = group_row g a k v.
Proof.
  unfold group_stage. destruct (collect_groups g a rows []) as [G | e]; [| discriminate].
  intro H. injection H as <-. intros r Hr.
  apply (Permutation_in _ (GroupProofs.js_sort_perm _ _)) in Hr.
  apply in_map_iff in Hr as (kv & <- & _). eexists; eexists; reflexivity.
Qed.

Lemma names_of_type_nil (p : string -> bool) (columns : list ColumnProfile) :
  names_of_type p columns = [] <-> forall c, In c columns -> p (cp_type c) = false.
Proof.
  unfold names_of_type.
  induction columns as [| c cs IH]; simpl; [split; [intros _ c [] | reflexivity] |].
  destruct (p (cp_type c)) eqn:E; simpl.
  - split; [discriminate | intro H]. rewrite (H c (or_introl eq_refl)) in E. discriminate.
  - rewrite IH. split.
    + intros H c' [<- | Hc']; [exact E | now apply H].
    + intros H c' Hc'. apply H. now right.
Qed.

End ChatProofs.
Module ChatExtras.
Import JsString JsNumber Js Types JsObject DataService Notions ChartRenderer AIChat ChatProofs.
Local Open Scope string_scope.

(** The welcome message of the chat lists two suggestions when the
    profile has a numeric, categorical or text column, and otherwise only
    "Summarize the key insights". *)
Theorem welcome_suggestions_fallback (columns : list ColumnProfile) :
  (welcome_suggestions columns = ["Summarize the key insights"]
   <-> forall c, In c columns ->
       cp_type c <> "numeric" /\ cp_type c <> "categorical" /\ cp_type c <> "text")
  /\ (welcome_suggestions columns = ["Summarize the key insights"]
      \/ length (welcome_suggestions columns) = 2%nat).
Proof.
  assert (Hiff : (names_of_type (fun t => String.eqb t "numeric") columns = []
                  /\ names_of_type (fun t => String.eqb t "categorical" || String.eqb t "text") columns = [])
                 <-> forall c, In c columns ->
                     cp_type c <> "numeric" /\ cp_type c <> "categorical" /\ cp_type c <> "text").
  { rewrite !names_of_type_nil. split.
    - intros [HN HC] c Hc. specialize (HN c Hc). specialize (HC c Hc).
      apply Bool.orb_false_iff in HC as [H1 H2].
      apply String.eqb_neq in HN, H1, H2. tauto.
    - intro H. split; intros c Hc; destruct (H c Hc) as (H1 & H2 & H3).
      + now apply String.eqb_neq.
      + apply Bool.orb_false_iff. split; now apply String.eqb_neq. }
  rewrite <- Hiff. unfold welcome_suggestions; cbv zeta.
  destruct (names_of_type (fun t => String.eqb t "numeric") columns) as [| n1 [| n2 N]];
  destruct (names_of_type (fun t => String.eqb t "categorical" || String.eqb t "text") columns)
    as [| c1 C];
  destruct (names_of_type (fun t => String.eqb t "datetime") columns) as [| d1 D];
  cbn; (split; [split; [try discriminate; try (intros _; split; reflexivity)
                       | try (intros [H1 H2]; discriminate); reflexivity]
                | first [left; reflexivity | right; reflexivity]]).
Qed.

(** Asking the chat gives the error message exactly when the intent is a
    grouped query (group-by, aggregate column and aggregate type all
    given) and some row kept by the intent's filters has a group key that
    names an inherited member of [Object.prototype], so that [queryData]
    throws. *)
Theorem chat_error_reply (data : list js_obj) (question : string) (intent : QueryIntent)
  (summary chartId msg : string) :
  handleSend_reply data question intent summary chartId = ErrorMessage msg
  <-> msg = "Sorry, I encountered an error processing your request."
      /\ qi_type intent = "query"
      /\ exists g a t, present (qi_groupBy intent) = Some g
           /\ present (qi_aggregateColumn intent) = Some a
           /\ present (qi_aggregateType intent) = Some t
           /\ exists row, In row (filter_stage data (qi_filters intent))
                          /\ is_proto_name (group_key g row) = true.
Proof.
  rewrite <- queryData_throws. unfold handleSend_reply; cbv zeta.
  destruct (String.eqb_spec (qi_type intent) "query") as [Ety | Nty];
    [| split; [discriminate | intros (_ & E & _); contradiction]].
  destruct (present (qi_groupBy intent)) as [g |] eqn:Hg.
  2: { split; [discriminate | intros (_ & _ & e & E)].
       unfold queryData in E; cbv zeta in E. now rewrite Hg in E. }
  destruct (present (qi_aggregateColumn intent)) as [a |] eqn:Ha.
  2: { split; [discriminate | intros (_ & _ & e & E)].
       unfold queryData in E; cbv zeta in E. now rewrite Hg, Ha in E. }
  destruct (queryData data intent) as [[| r0 rs] | e].
  - split; [discriminate | intros (_ & _ & e & E); discriminate].
  - split; [now destruct (qi_chartType intent) | intros (_ & _ & e & E); discriminate].
  - split.
    + intro E. injection E as <-. split; [reflexivity | split; [exact Ety | now exists e]].
    + intros (-> & _). reflexivity.
Qed.

(** A chart the chat attaches to its answer to a grouped query (one with
    an aggregate type) is always drawn: [ChartRenderer] never shows
    "Unable to render chart" for it. *)
Theorem chat_chart_renders (data : list js_obj) (question : string) (intent : QueryIntent)
  (summary chartId content : string) (ch : ChatChart)
  (Ht : present (qi_aggregateType intent) <> None)
  (H : handleSend_reply data question intent summary chartId = AiMessage content (Some ch)) :
  exists points, ChartRenderer (chat_config ch) (chat_data ch) = ChartPlot points.
Proof.
  unfold handleSend_reply in H; cbv zeta in H.
  destruct (String.eqb (qi_type intent) "query"); [| discriminate].
  destruct (present (qi_groupBy intent)) as [g |] eqn:Hg; [| discriminate].
  destruct (present (qi_aggregateColumn intent)) as [a |] eqn:Ha; [| discriminate].
  destruct (queryData data intent) as [rd | e] eqn:Hq; [| discriminate].
  destruct rd as [| r0 rs]; [discriminate |].
  destruct (qi_chartType intent) as [ct |]; [| discriminate].
  injection H as _ <-. cbn [chat_config chat_data xKey yKey cc_type].
  unfold queryData in Hq; cbv zeta in Hq. rewrite Hg, Ha in Hq.
  destruct (present (qi_aggregateType intent)) as [t |]; [| contradiction].
  destruct (group_stage (filter_stage data (qi_filters intent)) g a t) as [l | e] eqn:Hs;
    [| discriminate].
  assert (Einj : forall x y : list js_obj, Ok x = Ok y -> x = y) by congruence.
  apply Einj in Hq.
  assert (Hr0 : In r0 l).
  { rewrite <- (firstn_skipn result_limit l), Hq. now left. }
  destruct (group_stage_rows _ _ _ _ _ Hs r0 Hr0) as (k & v & ->).
  assert (Hlen : (length (group_row g a k v :: rs) <= 50)%nat).
  { rewrite <- Hq. apply firstn_le_length. }
  assert (Hcd : chart_data (group_row g a k v :: rs) = group_row g a k v :: rs).
  { unfold chart_data. destruct (Nat.ltb_spec 2000 (length (group_row g a k v :: rs)));
      [lia | reflexivity]. }
  destruct (group_row_keys g a k v) as [Hx Hy].
  unfold ChartRenderer. rewrite Hcd. cbn [isValidKey xKey yKey cc_type].
  rewrite Hx, Hy. cbn [negb andb orb length Nat.eqb].
  destruct ct; eexists; reflexivity.
Qed.

Definition sales_question_intent : QueryIntent :=
  {| qi_type := "query"; qi_filters := None; qi_groupBy := Some "region";
     qi_aggregateColumn := Some "sales"; qi_aggregateType := Some "SUM";
     qi_chartType := Some BAR; qi_textResponse := None; qi_title := None |}.

Definition sales_rows_chat : list js_obj :=
  [[("region", VStr "North"); ("sales", VNum 5)]; [("region", VStr "South"); ("sales", VNum 7)];
   [("region", VStr "North"); ("sales", VNum 2)]].

Definition sales_chat_chart : ChatChart :=
  {| chat_config := {| cc_id := "chat-chart-1"; cc_type := BAR; cc_title := "Analysis Result";
                       cc_description := "Generated from query: sales by region";
                       xKey := "region"; yKey := "sales"; categoryKey := None |};
     chat_data := [[("region", VStr "North"); ("sales", VNum 7)];
                   [("region", VStr "South"); ("sales", VNum 7)]] |}.

Lemma chat_chart_renders_witness :
  present (qi_aggregateType sales_question_intent) <> None
  /\ handleSend_reply sales_rows_chat "sales by region" sales_question_intent
       "North and South sold 7 each." "chat-chart-1"
     = AiMessage "North and South sold 7 each." (Some sales_chat_chart)
  /\ exists points, ChartRenderer (chat_config sales_chat_chart) (chat_data sales_chat_chart)
                    = ChartPlot points.
Proof.
  assert (H1 : present (qi_aggregateType sales_question_intent) <> None) by discriminate.
  assert (H2 : handleSend_reply sales_rows_chat "sales by region" sales_question_intent
                 "North and South sold 7 each." "chat-chart-1"
               = AiMessage "North and South sold 7 each." (Some sales_chat_chart))
    by (vm_compute; reflexivity).
  split; [exact H1 | split; [exact H2 |]].
  exact (chat_chart_renders sales_rows_chat "sales by region" sales_question_intent
           "North and South sold 7 each." "chat-chart-1" _ sales_chat_chart H1 H2).
Defined.

End ChatExtras.
Module CountProofs.
Import JsString JsNumber Js Types DataService Notions GroupProofs PearsonProofs.

Lemma qsum_perm (l l' : list Q) : Permutation l l' -> qsum l == qsum l'.
Proof.
  induction 1 as [| x l l' _ IH | x y l | l l' l'' _ IH1 _ IH2]; simpl.
  - reflexivity.
  - now rewrite IH.
  - ring.
  - now rewrite IH1.
Qed.

Lemma sumQ_qsum (l : list Q) : sumQ l == qsum l.
Proof.
  unfold sumQ. transitivity (0 + qsum (map (fun x => x) l)).
  - exact (fold_qsum (fun x => x) l 0).
  - rewrite map_id. ring.
Qed.

Lemma qsum_ext (f h : string -> Q) (l : list string) :
  (forall x, In x l -> f x == h x) -> qsum (map f l) == qsum (map h l).
Proof.
  induction l as [| x r IH]; intro H; simpl; [reflexivity |].
  rewrite (H x (or_introl eq_refl)), IH; [reflexivity |]. intros y Hy. apply H. now right.
Qed.

Lemma qsum_nat (f : string -> nat) (l : list string) :
  qsum (map (fun x => inject_Z (Z.of_nat (f x))) l) == inject_Z (Z.of_nat (list_sum (map f l))).
Proof.
  induction l as [| x r IH]; simpl; [reflexivity |].
  rewrite IH, Nat2Z.inj_add, inject_Z_plus. reflexivity.
Qed.

Lemma round2_int (n : Z) : round2 (inject_Z n) == inject_Z n.
Proof.
  unfold round2. rewrite Qred_correct. unfold Qeq, Qfloor. simpl.
  Z.div_mod_to_equations. lia.
Qed.

Lemma agg_value_spec_row (g a k : string) (v : Q) : agg_value a (spec_row g a k v) == v.
Proof.
  unfold agg_value. rewrite spec_row_get. unfold num_or_zero. simpl.
  destruct (Qeq_bool v 0) eqn:E; [| reflexivity].
  apply Qeq_bool_eq in E. now rewrite E.
Qed.

Lemma sum_indicator_notin (K : list string) (x : string) :
  ~ In x K -> list_sum (map (fun k => if String.eqb x k then 1 else 0)%nat K) = 0%nat.
Proof.
  induction K as [| k K IH]; intro H; simpl; [reflexivity |].
  destruct (String.eqb_spec x k) as [-> | _]; [exfalso; apply H; now left |].
  apply IH. intro H'. apply H. now right.
Qed.

Lemma sum_indicator (K : list string) (x : string) :
  NoDup K -> In x K -> list_sum (map (fun k => if String.eqb x k then 1 else 0)%nat K) = 1%nat.
Proof.
  induction K as [| k K IH]; intros Hd Hx; [destruct Hx |].
  apply NoDup_cons_iff in Hd as [Hk Hd]. simpl.
  destruct (String.eqb_spec x k) as [-> | Hne].
  - now rewrite sum_indicator_notin.
  - destruct Hx as [-> | Hx]; [congruence |]. now apply IH.
Qed.

Lemma list_sum_map_add (f h : string -> nat) (K : list string) :
  list_sum (map (fun k => f k + h k)%nat K) = (list_sum (map f K) + list_sum (map h K))%nat.
Proof. induction K as [| k K IH]; simpl; [reflexivity |]. rewrite IH. lia. Qed.

(** Rows counted group by group add up to all the rows. *)
Lemma count_partition {A : Type} (key : A -> string) (rows : list A) (K : list string) :
  NoDup K -> (forall r, In r rows -> In (key r) K) ->
  list_sum (map (fun k => length (filter (fun r => String.eqb (key r) k) rows)) K)
  = length rows.
Proof.
  intro Hd. induction rows as [| r rs IH]; intro Hin.
  - simpl. induction K as [| k K IHK]; simpl; [reflexivity |].
    apply NoDup_cons_iff in Hd as [_ Hd]. now apply IHK.
  - transitivity (list_sum (map (fun k => (if String.eqb (key r) k then 1 else 0)
                                          + length (filter (fun r => String.eqb (key r) k) rs))%nat K)).
    + f_equal. apply map_ext. intro k. simpl. now destruct (String.eqb (key r) k).
    + rewrite list_sum_map_add, sum_indicator, IH; [reflexivity | | exact Hd |].
      * intros r' Hr'. apply Hin. now right.
      * apply Hin. now left.
Qed.

End CountProofs.

Module CountExtras.
Import JsString JsNumber Js Types DataService Notions GroupProofs CountProofs.

(** A COUNT query with at most 50 groups loses no row: [queryData]
    returns every group, and the counts it reports add up to the number
    of rows its filters keep. *)
Theorem count_totals (data : list js_obj) (intent : QueryIntent) (g a : string)
  (Hg : present (qi_groupBy intent) = Some g)
  (Ha : present (qi_aggregateColumn intent) = Some a)
  (Ht : present (qi_aggregateType intent) = Some "COUNT"%string)
  (Hk : forall row, In row (filter_stage data (qi_filters intent)) ->
                    is_proto_name (group_key g row) = false)
  (H50 : (length (group_keys g (filter_stage data (qi_filters intent))) <= 50)%nat) :
  exists out, queryData data intent = Ok out
    /\ length out = length (group_keys g (filter_stage data (qi_filters intent)))
    /\ sumQ (map (agg_value a) out) == lengthQ (filter_stage data (qi_filters intent)).
Proof.
  set (rows := filter_stage data (qi_filters intent)) in *.
  destruct (group_stage_spec rows g a "COUNT" Hk) as (out & Hs & Hp & _).
  assert (Hlen : length out = length (group_keys g rows)).
  { rewrite (Permutation_length Hp). unfold spec_rows. now rewrite length_map. }
  exists out. split; [| split; [exact Hlen |]].
  - unfold queryData; cbv zeta. rewrite Hg, Ha, Ht. fold rows. rewrite Hs.
    f_equal. apply firstn_all2. unfold result_limit. lia.
  - rewrite sumQ_qsum, (qsum_perm _ _ (Permutation_map _ Hp)). unfold spec_rows.
    rewrite map_map.
    rewrite (qsum_ext _ (fun k => inject_Z (Z.of_nat (length (group_values g a rows k))))).
    + rewrite qsum_nat. unfold lengthQ. f_equal.
      unfold group_values.
      rewrite (map_ext _ (fun k => length (filter (fun row => String.eqb (group_key g row) k) rows)))
        by (intro k; apply length_map).
      rewrite count_partition; [reflexivity | apply NoDup_nodup |].
      intros r Hr. unfold group_keys. apply nodup_In. now apply in_map.
    + intros k _. rewrite agg_value_spec_row. apply round2_int.
Qed.

Definition count_intent : QueryIntent :=
  {| qi_type := "query"; qi_filters := Some [{| qf_column := "sales"; qf_operator := ">";
                                                qf_value := VNum 1 |}];
     qi_groupBy := Some "region"; qi_aggregateColumn := Some "sales";
     qi_aggregateType := Some "COUNT"; qi_chartType := None; qi_textResponse := None;
     qi_title := None |}%string.

Definition count_rows : list js_obj :=
  [[("region", VStr "North"); ("sales", VNum 5)]; [("region", VStr "South"); ("sales", VNum 7)];
   [("region", VStr "North"); ("sales", VNum 2)]; [("region", VStr "East"); ("sales", VNum 1)]]%string.

Lemma count_totals_witness :
  exists out, queryData count_rows count_intent = Ok out
    /\ length out = length (group_keys "region" (filter_stage count_rows (qi_filters count_intent)))
    /\ sumQ (map (agg_value "sales") out) == lengthQ (filter_stage count_rows (qi_filters count_intent)).
Proof.
  apply (count_totals count_rows count_intent "region" "sales").
  - reflexivity.
  - reflexivity.
  - reflexivity.
  - intros row Hr. vm_compute in Hr.
    destruct Hr as [<- | [<- | [<- | []]]]; reflexivity.
  - vm_compute. lia.
Defined.

End CountExtras.
Module MarkdownProofs.
Import JsString FileUpload UploadProofs MarkdownText.
Local Open Scope string_scope.

Definition no_break (m : list ascii) : Prop :=
  forall c, In c m -> is_line_terminator c = false.

Definition bold_part (b : list ascii) : Prop :=
  exists m, b = (star_star ++ m ++ star_star)%list /\ no_break m.

Inductive alternating : list (list ascii) -> Prop :=
| alt_last (x : list ascii) : alternating [x]
| alt_cons (x b : list ascii) (r : list (list ascii)) :
    bold_part b -> alternating r -> alternating (x :: b :: r).

Lemma lazy_close_spec (r : list ascii) (k : nat) :
  lazy_close r = Some k ->
  exists m rest, r = (m ++ star_star ++ rest)%list /\ length m = k /\ no_break m.
Proof.
  revert k. induction r as [| c r' IH]; intros k H; [discriminate |].
  cbn [lazy_close] in H.
  destruct (prefixb star_star (c :: r')) eqn:Hp.
  - injection H as <-. apply prefixb_spec in Hp as (t & Ht).
    exists [], t. split; [exact Ht | split; [reflexivity | intros x []]].
  - destruct (is_line_terminator c) eqn:Hc; [discriminate |].
    destruct (lazy_close r') as [k' |] eqn:E; [| discriminate].
    injection H as <-. destruct (IH k' eq_refl) as (m & rest & -> & Hl & Hm).
    exists (c :: m), rest. split; [reflexivity | split; [cbn; now rewrite Hl |]].
    intros x [<- | Hx]; [exact Hc | now apply Hm].
Qed.

Lemma match_at_spec (s : list ascii) (q e : nat) :
  match_at s q = Some e ->
  (q + 4 <= e <= length s)%nat /\ bold_part (firstn (e - q) (skipn q s)).
Proof.
  unfold match_at. destruct (prefixb star_star (skipn q s)) eqn:Hp; [| discriminate].
  apply prefixb_spec in Hp as (t & Ht). rewrite Ht.
  replace (skipn 2 (star_star ++ t)) with t by reflexivity.
  destruct (lazy_close t) as [k |] eqn:Hk; [| discriminate].
  intro H. injection H as <-.
  destruct (lazy_close_spec t k Hk) as (m & rest & -> & Hl & Hm).
  assert (Hlen : length (skipn q s) = (length s - q)%nat) by apply length_skipn.
  rewrite Ht in Hlen. rewrite !length_app in Hlen. cbn [length star_star] in Hlen.
  split; [lia |].
  exists m. split; [| exact Hm].
  replace (q + 2 + k + 2 - q)%nat with (length (star_star ++ m ++ star_star)%list)
    by (rewrite !length_app; cbn [length star_star]; lia).
  rewrite !app_assoc, firstn_app, firstn_all, Nat.sub_diag, firstn_O, app_nil_r.
  reflexivity.
Qed.

Lemma firstn_skipn_between (s : list ascii) (p q : nat) :
  (p <= q)%nat -> (firstn (q - p) (skipn p s) ++ skipn q s)%list = skipn p s.
Proof.
  intro H. replace (skipn q s) with (skipn (q - p) (skipn p s)).
  - apply firstn_skipn.
  - rewrite skipn_skipn. f_equal. lia.
Qed.

Lemma split_loop_spec (s : list ascii) (fuel p q : nat) :
  (p <= q <= length s)%nat -> (length s - q < fuel)%nat ->
  concat (split_loop fuel s p q) = skipn p s /\ alternating (split_loop fuel s p q).
Proof.
  revert p q. induction fuel as [| f IH]; intros p q Hpq Hf; [lia |].
  cbn [split_loop]. destruct (Nat.ltb_spec q (length s)) as [Hq | Hq].
  - destruct (match_at s q) as [e |] eqn:Hm.
    + destruct (match_at_spec s q e Hm) as [He Hb].
      destruct (Nat.eqb_spec e p) as [Hep | _]; [lia |].
      destruct (IH e e) as [Hc Ha]; [lia | lia |].
      split.
      * cbn [concat]. rewrite Hc, (firstn_skipn_between s q e) by lia.
        apply firstn_skipn_between. lia.
      * constructor; assumption.
    + apply IH; lia.
  - split; [cbn; apply app_nil_r | constructor].
Qed.

Lemma alternating_nth (L : list (list ascii)) :
  alternating L ->
  Nat.odd (length L) = true
  /\ forall i, Nat.odd i = true -> (i < length L)%nat -> bold_part (nth i L []).
Proof.
  induction 1 as [x | x b r Hb _ [IHl IHn]].
  - split; [reflexivity | intros [| [| i]] Hi Hl; cbn in *; [discriminate | lia | lia]].
  - split; [cbn [length]; rewrite Nat.odd_succ_succ; exact IHl |].
    intros [| [| i]] Hi Hl; [discriminate | exact Hb |].
    cbn [nth]. apply IHn; [now rewrite Nat.odd_succ_succ in Hi | cbn in Hl; lia].
Qed.

Lemma string_of_list_ascii_app (a b : list ascii) :
  string_of_list_ascii (a ++ b) = string_of_list_ascii a ++ string_of_list_ascii b.
Proof. induction a as [| c a IH]; cbn; [reflexivity | now rewrite IH]. Qed.

Lemma join_parts (L : list (list ascii)) :
  fold_right String.append EmptyString (map string_of_list_ascii L)
  = string_of_list_ascii (concat L).
Proof.
  induction L as [| x L IH]; cbn [map fold_right concat]; [reflexivity |].
  now rewrite IH, string_of_list_ascii_app.
Qed.

Lemma md_node_bold (m : list ascii) :
  md_node (string_of_list_ascii (star_star ++ m ++ star_star)) = Strong (string_of_list_ascii m).
Proof.
  unfold md_node. rewrite list_ascii_of_string_of_list_ascii.
  assert (He : ends_with (string_of_list_ascii (star_star ++ m ++ star_star)) "**" = true).
  { apply ends_with_spec. exists (string_of_list_ascii (star_star ++ m)).
    rewrite app_assoc, string_of_list_ascii_app. reflexivity. }
  assert (Hp : prefixb star_star (star_star ++ m ++ star_star) = true)
    by (apply prefixb_spec; eexists; reflexivity).
  rewrite Hp, He. cbn [andb].
  replace (length (star_star ++ m ++ star_star) - 2 - 2)%nat with (length m)
    by (rewrite !length_app; cbn [length star_star]; lia).
  cbn [skipn star_star app]. rewrite firstn_app, Nat.sub_diag, firstn_O, app_nil_r, firstn_all.
  reflexivity.
Qed.

End MarkdownProofs.

Module MarkdownExtras.
Import JsString FileUpload MarkdownText MarkdownProofs.
Local Open Scope string_scope.

(** [MarkdownText] loses no text: the parts of the split join back to the
    message.  They alternate between plain text and bold matches, starting
    and ending with plain text; each bold match is [**m**] with no line
    break in [m], and it is shown as [m] in bold. *)
Theorem markdown_parts (text : string) :
  fold_right String.append EmptyString (md_split text) = text
  /\ Nat.odd (length (md_split text)) = true
  /\ forall i, Nat.odd i = true -> (i < length (md_split text))%nat ->
       exists m, nth i (md_split text) EmptyString = "**" ++ m ++ "**"
         /\ (forall c, In c (list_ascii_of_string m) -> c <> "010"%char /\ c <> "013"%char)
         /\ nth i (MarkdownText text) (Span EmptyString) = Strong m.
Proof.
  set (s := list_ascii_of_string text).
  destruct (split_loop_spec s (S (length s)) 0 0) as [Hc Ha]; [lia | lia |].
  destruct (alternating_nth _ Ha) as [Hodd Hnth].
  unfold md_split; fold s.
  split; [| split].
  - rewrite join_parts, Hc. apply string_of_list_ascii_of_string.
  - now rewrite length_map.
  - intros i Hi Hl. rewrite length_map in Hl.
    destruct (Hnth i Hi Hl) as (m & Hm & Hnb).
    exists (string_of_list_ascii m).
    assert (En : nth i (map string_of_list_ascii (split_loop (S (length s)) s 0 0)) EmptyString
                 = string_of_list_ascii (star_star ++ m ++ star_star)).
    { rewrite <- Hm. apply (map_nth string_of_list_ascii _ [] i). }
    split; [| split].
    + rewrite En, !string_of_list_ascii_app. reflexivity.
    + intros c Hcm. rewrite list_ascii_of_string_of_list_ascii in Hcm.
      specialize (Hnb c Hcm). unfold is_line_terminator in Hnb.
      apply Bool.orb_false_iff in Hnb as [H1 H2].
      split; intro E; subst c; discriminate.
    + unfold MarkdownText, md_split; fold s.
      change (Span EmptyString) with (md_node EmptyString).
      rewrite map_nth, En. apply md_node_bold.
Qed.

End MarkdownExtras.
Module FooterExtras.
Import DataStudio StudioProofs.

(** On every page from 1 to [totalPages], the footer's "Showing a-b"
    names the rows the table shows: the page holds rows [a] to [b] of the
    data (counted from 1), and [a <= b]. *)
Theorem footer_matches_page {A : Type} (data : list A) (page : Z)
  (H1 : (1 <= page)%Z) (H2 : (page <= totalPages (length data))%Z) :
  let (first, last) := showing_range (length data) page in
  (1 <= first <= last)%Z
  /\ paginatedData data page
     = firstn (Z.to_nat (last - first + 1)) (skipn (Z.to_nat (first - 1)) data).
Proof.
  unfold showing_range, rowsPerPage.
  assert (Hlt : ((page - 1) * 50 < Z.of_nat (length data))%Z).
  { unfold totalPages, rowsPerPage in H2.
    pose proof (Z.mul_div_le (Z.of_nat (length data) + 50 - 1) 50 ltac:(lia)). nia. }
  split; [lia |].
  unfold paginatedData, rowsPerPage.
  replace (page * 50)%Z with ((page - 1) * 50 + 50)%Z by lia.
  rewrite slice_page by lia.
  replace ((page - 1) * 50 + 1 - 1)%Z with ((page - 1) * 50)%Z by lia.
  rewrite <- (firstn_min_length 50).
  f_equal. rewrite length_skipn. lia.
Qed.

Lemma footer_matches_page_witness :
  (1 <= 2)%Z /\ (2 <= totalPages (length (seq 0 120)))%Z
  /\ let (first, last) := showing_range (length (seq 0 120)) 2 in
     (1 <= first <= last)%Z
     /\ paginatedData (seq 0 120) 2
        = firstn (Z.to_nat (last - first + 1)) (skipn (Z.to_nat (first - 1)) (seq 0 120)).
Proof.
  assert (Ha : (1 <= 2)%Z) by lia.
  assert (Hb : (2 <= totalPages (length (seq 0 120)))%Z) by (vm_compute; discriminate).
  split; [exact Ha | split; [exact Hb |]].
  exact (footer_matches_page (seq 0 120) 2 Ha Hb).
Defined.

End FooterExtras.
